(** * Mixcloud chat trigger server: a shallow embedding of [server.js]

    The monitoring engine of [server.js] (start/stop of a watch session, the
    periodic [checkForTriggers] tick, the seen-message window, trigger
    matching and the fan-out to WebSocket clients) is embedded as Rocq
    functions over an explicit record of the module-level variables.

    Conventions of the embedding:
    - JavaScript strings are [string]; template literals are written with
      [+:+].
    - The module-level [let] variables are the fields of [State]; async
      functions are computations in a state/exception/output monad [M].
    - What the program awaits from the outside (puppeteer calls) is passed
      in as a [Result]: the value the promise resolves to, or the message
      of the error it rejects with.
    - [console.log] and [console.error] are not part of the listener
      protocol and are left out; what is recorded is every message handed
      to a WebSocket. *)

From Stdlib Require Import List String Ascii Bool Arith Lia DecimalString.
Import ListNotations.

Local Open Scope string_scope.
Local Open Scope list_scope.
Local Open Scope nat_scope.

Notation "a +:+ b" := (String.append a b) (at level 60, right associativity).

(** ** JavaScript values used by the server *)

Module Js.

(** [String.prototype.includes]: is [needle] a contiguous run of
    characters of [s]? *)
Fixpoint includes (s needle : string) : bool :=
  String.prefix needle s
  || match s with
     | EmptyString => false
     | String _ rest => includes rest needle
     end.

(** [Array.prototype.slice(-n)]: the last [n] elements, in order. *)
Definition sliceLast {A : Type} (n : nat) (xs : list A) : list A :=
  skipn (List.length xs - n) xs.

(** Template-literal rendering of a non-negative integer. *)
Definition showNat (n : nat) : string :=
  NilEmpty.string_of_uint (Nat.to_uint n).

(** The double-quote character as a one-character string. *)
Definition dquote : string := String "034"%char EmptyString.

(** Truthiness of a string: only the empty string is falsy. *)
Definition truthy (s : string) : bool :=
  match s with
  | EmptyString => false
  | String _ _ => true
  end.

(** [x?.textContent || ''] for a node that may be missing. *)
Definition textContentOrEmpty (node : option string) : string :=
  match node with
  | Some s => s
  | None => ""
  end.

(** An ASCII instance of [toLowerCase], used to run the model on
    concrete inputs. *)
Definition asciiLowerChar (c : ascii) : ascii :=
  let n := nat_of_ascii c in
  if (65 <=? n) && (n <=? 90) then ascii_of_nat (n + 32) else c.

Fixpoint asciiToLowerCase (s : string) : string :=
  match s with
  | EmptyString => EmptyString
  | String c rest => String (asciiLowerChar c) (asciiToLowerCase rest)
  end.

End Js.

(** A JavaScript [Set] of strings: unique elements kept in insertion
    order. *)
Module JsSet.

Definition t := list string.

Definition empty : t := [].

Definition has (s : t) (x : string) : bool := existsb (String.eqb x) s.

(** [add] appends a value that is not yet present and ignores one that
    is. *)
Definition add (s : t) (x : string) : t :=
  if has s x then s else s ++ [x].

(** [new Set(iterable)]: the elements are added one by one, in order. *)
Definition from (xs : list string) : t := fold_left add xs empty.

Definition size (s : t) : nat := List.length s.

(** [Array.from(set)]: the elements in insertion order. *)
Definition toArray (s : t) : list string := s.

End JsSet.

(** ** Data model *)

(** An entry of [triggerWords]: [{ word }]. *)
Record Trigger := mkTrigger { word : string }.

(** What the variable [triggerWords] can hold.  It starts as an empty
    array; the [/start] route and the WebSocket message handler store the
    [triggers] field of a parsed JSON text as it comes:
    - [WordList]: an array of [{ word }] objects;
    - [Nullish]: [undefined] (the field is absent) or [null];
    - [OtherValue]: a number, a boolean or an object without a [length]
      member, which has no length and cannot be iterated; [truthy] is
      [false] for [0] and [false], the values of this kind that an [if]
      does not take.
    Values whose iteration yields something else than [{ word }] objects
    (strings, arrays of other things) are left out. *)
Inductive TriggerWords : Type :=
| WordList (triggers : list Trigger)
| Nullish
| OtherValue (truthy : bool).

(** [if (value)]: an array is an object, hence taken even when empty. *)
Definition truthyWords (value : TriggerWords) : bool :=
  match value with
  | WordList _ => true
  | Nullish => false
  | OtherValue truthy => truthy
  end.

(** A [.chat-message] element of the page, reduced to what the tick reads
    from it: the text content of its username and text children, when they
    exist. *)
Record ChatElement := mkChatElement {
  usernameNode : option string;
  textNode : option string
}.

(** The object built for each element: [{ id, username, text }]. *)
Record ChatMessage := mkChatMessage {
  id : string;
  username : string;
  text : string
}.

(** The messages sent over a WebSocket, before [JSON.stringify]. *)
Inductive Event : Type :=
| LogEvent (message : string) (logType : string)
| TriggerEvent (trigger : string) (message : string).

Inductive ReadyState : Type := CONNECTING | OPEN | CLOSING | CLOSED.

(** A connected WebSocket: its identity and its [readyState]. *)
Record Client := mkClient {
  clientId : nat;
  readyState : ReadyState
}.

(** What leaves the server: one call of [broadcastMessage], with the
    clients it was sent to (in the order of the sends), or one direct
    [ws.send]. *)
Inductive Output : Type :=
| Broadcast (message : Event) (receivers : list nat)
| Send (client : nat) (message : Event).

(** The module-level variables of [server.js], and the intervals the
    runtime holds for [setInterval]. *)
Record State := mkState {
  browser : option nat;
  page : option nat;
  isMonitoring : bool;
  mixcloudUrl : string;
  lastMessages : JsSet.t;
  checkInterval : option nat;
  triggerWords : TriggerWords;
  clients : list Client;
  timers : list nat;
  nextTimer : nat
}.

Definition initialState : State :=
  {| browser := None; page := None; isMonitoring := false;
     mixcloudUrl := ""; lastMessages := JsSet.empty; checkInterval := None;
     triggerWords := WordList []; clients := []; timers := [];
     nextTimer := 0 |}.

Definition setBrowser (v : option nat) (st : State) : State :=
  mkState v (page st) (isMonitoring st) (mixcloudUrl st) (lastMessages st)
          (checkInterval st) (triggerWords st) (clients st) (timers st)
          (nextTimer st).

Definition setPage (v : option nat) (st : State) : State :=
  mkState (browser st) v (isMonitoring st) (mixcloudUrl st) (lastMessages st)
          (checkInterval st) (triggerWords st) (clients st) (timers st)
          (nextTimer st).

Definition setIsMonitoring (v : bool) (st : State) : State :=
  mkState (browser st) (page st) v (mixcloudUrl st) (lastMessages st)
          (checkInterval st) (triggerWords st) (clients st) (timers st)
          (nextTimer st).

Definition setMixcloudUrl (v : string) (st : State) : State :=
  mkState (browser st) (page st) (isMonitoring st) v (lastMessages st)
          (checkInterval st) (triggerWords st) (clients st) (timers st)
          (nextTimer st).

Definition setLastMessages (v : JsSet.t) (st : State) : State :=
  mkState (browser st) (page st) (isMonitoring st) (mixcloudUrl st) v
          (checkInterval st) (triggerWords st) (clients st) (timers st)
          (nextTimer st).

Definition setCheckInterval (v : option nat) (st : State) : State :=
  mkState (browser st) (page st) (isMonitoring st) (mixcloudUrl st)
          (lastMessages st) v (triggerWords st) (clients st) (timers st)
          (nextTimer st).

Definition setTriggerWords (v : TriggerWords) (st : State) : State :=
  mkState (browser st) (page st) (isMonitoring st) (mixcloudUrl st)
          (lastMessages st) (checkInterval st) v (clients st) (timers st)
          (nextTimer st).

Definition setClients (v : list Client) (st : State) : State :=
  mkState (browser st) (page st) (isMonitoring st) (mixcloudUrl st)
          (lastMessages st) (checkInterval st) (triggerWords st) v (timers st)
          (nextTimer st).

Definition setTimers (v : list nat) (n : nat) (st : State) : State :=
  mkState (browser st) (page st) (isMonitoring st) (mixcloudUrl st)
          (lastMessages st) (checkInterval st) (triggerWords st) (clients st)
          v n.

(** ** The monad of the server's procedures

    A computation reads and writes the [State], may throw an error (the
    [message] of a JavaScript [Error]) and appends to the list of outputs.
    Unlike a rollback, a throw keeps the state changes and the outputs made
    before it, as in JavaScript. *)

Inductive Result (A : Type) : Type :=
| Ok (a : A)
| Throw (e : string).

Arguments Ok {A} a.
Arguments Throw {A} e.

Definition M (A : Type) : Type := State -> Result A * State * list Output.

Definition ret {A : Type} (a : A) : M A := fun st => (Ok a, st, []).

Definition bind {A B : Type} (m : M A) (f : A -> M B) : M B :=
  fun st =>
    match m st with
    | (Ok a, st1, out1) =>
        match f a st1 with
        | (r, st2, out2) => (r, st2, out1 ++ out2)
        end
    | (Throw e, st1, out1) => (Throw e, st1, out1)
    end.

Definition throw {A : Type} (e : string) : M A := fun st => (Throw e, st, []).

(** [try { body } catch (error) { handler(error) }] *)
Definition tryCatch {A : Type} (body : M A) (handler : string -> M A) : M A :=
  fun st =>
    match body st with
    | (Ok a, st1, out1) => (Ok a, st1, out1)
    | (Throw e, st1, out1) =>
        match handler e st1 with
        | (r, st2, out2) => (r, st2, out1 ++ out2)
        end
    end.

Definition get : M State := fun st => (Ok st, st, []).

Definition gets {A : Type} (f : State -> A) : M A := fun st => (Ok (f st), st, []).

Definition modify (f : State -> State) : M unit := fun st => (Ok tt, f st, []).

Definition emit (o : Output) : M unit := fun st => (Ok tt, st, [o]).

(** [await p], where the promise [p] settles with [r]. *)
Definition await {A : Type} (r : Result A) : M A := fun st => (r, st, []).

(** [for (const x of xs) { body(x) }], for a body without [break]. *)
Fixpoint forOf {A : Type} (xs : list A) (body : A -> M unit) : M unit :=
  match xs with
  | [] => ret tt
  | x :: rest => bind (body x) (fun _ => forOf rest body)
  end.

Declare Scope js_scope.
Delimit Scope js_scope with js.
Notation "x <- c1 ;; c2" := (bind c1 (fun x => c2))
  (at level 61, c1 at next level, right associativity) : js_scope.
Notation "c1 ;; c2" := (bind c1 (fun _ => c2))
  (at level 61, right associativity) : js_scope.

Definition resultOf {A : Type} (x : Result A * State * list Output) : Result A :=
  fst (fst x).
Definition stateOf {A : Type} (x : Result A * State * list Output) : State :=
  snd (fst x).
Definition outputOf {A : Type} (x : Result A * State * list Output) : list Output :=
  snd x.

Definition mapResult {A B : Type} (f : A -> B) (r : Result A) : Result B :=
  match r with
  | Ok a => Ok (f a)
  | Throw e => Throw e
  end.

Local Open Scope js_scope.

(** ** The server *)

Section Server.

(** [String.prototype.toLowerCase].  The development holds for any
    function in its place; [Js.asciiToLowerCase] instantiates it when the
    model is run. *)
Variable toLowerCase : string -> string.

(** *** Broadcast hub *)

Definition isOpen (client : Client) : bool :=
  match readyState client with
  | OPEN => true
  | _ => false
  end.

Definition openClients (st : State) : list nat :=
  map clientId (filter isOpen (clients st)).

(** [broadcastMessage(message)]: one send to every client whose
    [readyState] is [OPEN]. *)
Definition broadcastMessage (message : Event) : M unit :=
  cs <- gets openClients ;;
  emit (Broadcast message cs).

(** [log(message, type = 'info')] *)
Definition log (message : string) (type : string) : M unit :=
  broadcastMessage (LogEvent message type).

(** *** Timers of the runtime *)

Definition setInterval : M nat :=
  t <- gets nextTimer ;;
  modify (fun st => setTimers (timers st ++ [t]) (S t) st) ;;
  ret t.

Definition clearInterval (t : nat) : M unit :=
  modify (fun st => setTimers (remove Nat.eq_dec t (timers st)) (nextTimer st) st).

(** *** [stopMonitoring]

    [closed] is what [browser.close()] settles with. *)
Definition stopMonitoring (closed : Result unit) : M bool :=
  interval <- gets checkInterval ;;
  match interval with
  | Some t => clearInterval t ;; modify (setCheckInterval None)
  | None => ret tt
  end ;;
  b <- gets browser ;;
  match b with
  | Some _ =>
      await closed ;;
      modify (setBrowser None) ;;
      modify (setPage None)
  | None => ret tt
  end ;;
  modify (setIsMonitoring false) ;;
  modify (setLastMessages JsSet.empty) ;;
  log "Monitoring stopped" "info" ;;
  ret true.

(** *** [startMonitoring]

    [closed], [launched], [opened] and [navigated] are what
    [browser.close()] (of the stop that comes first when a session is
    running), [puppeteer.launch()], [browser.newPage()] and [page.goto()]
    settle with. *)
Definition startMonitoring (closed : Result unit) (launched opened : Result nat)
    (navigated : Result unit) (url : string) : M bool :=
  monitoring <- gets isMonitoring ;;
  (if monitoring then stopMonitoring closed ;; ret tt else ret tt) ;;
  tryCatch
    (log ("Starting browser for: " +:+ url) "info" ;;
     b <- await launched ;;
     modify (setBrowser (Some b)) ;;
     p <- await opened ;;
     modify (setPage (Some p)) ;;
     await navigated ;;
     log "Connected to Mixcloud stream" "info" ;;
     modify (setMixcloudUrl url) ;;
     modify (setIsMonitoring true) ;;
     modify (setLastMessages JsSet.empty) ;;
     t <- setInterval ;;
     modify (setCheckInterval (Some t)) ;;
     ret true)
    (fun error =>
       log ("Error starting monitoring: " +:+ error) "error" ;;
       throw error).

(** *** [checkForTriggers] *)

(** The object the page script builds for one [.chat-message] element. *)
Definition mkMessage (el : ChatElement) : ChatMessage :=
  let username := Js.textContentOrEmpty (usernameNode el) in
  let text := Js.textContentOrEmpty (textNode el) in
  {| id := username +:+ ":" +:+ text; username := username; text := text |}.

(** The test of the inner loop:
    [message.text.toLowerCase().includes(trigger.word.toLowerCase())]. *)
Definition matches (message : ChatMessage) (trigger : Trigger) : bool :=
  Js.includes (toLowerCase (text message)) (toLowerCase (word trigger)).

Definition detectedText (trigger : Trigger) (message : ChatMessage) : string :=
  "Trigger " +:+ Js.dquote +:+ word trigger +:+ Js.dquote
    +:+ " detected in message from " +:+ username message.

Definition renderedMessage (message : ChatMessage) : string :=
  username message +:+ ": " +:+ text message.

(** The inner loop [for (const trigger of triggerWords)], which ends at
    the first match ([break]). *)
Fixpoint scanTriggers (message : ChatMessage) (triggers : list Trigger) : M unit :=
  match triggers with
  | [] => ret tt
  | trigger :: rest =>
      if matches message trigger then
        log (detectedText trigger message) "info" ;;
        broadcastMessage (TriggerEvent (word trigger) (renderedMessage message))
      else scanTriggers message rest
  end.

(** The message of the TypeError that [for (const trigger of triggerWords)]
    throws when the value cannot be iterated, as V8 words it. *)
Definition notIterable : string := "triggerWords is not iterable".

(** What [for (const trigger of triggerWords)] goes through. *)
Definition iterate (value : TriggerWords) : Result (list Trigger) :=
  match value with
  | WordList triggers => Ok triggers
  | Nullish => Throw notIterable
  | OtherValue _ => Throw notIterable
  end.

(** The body of the outer loop, for one new message. *)
Definition processMessage (message : ChatMessage) : M unit :=
  if negb (Js.truthy (text message)) then ret tt
  else
    value <- gets triggerWords ;;
    match iterate value with
    | Ok triggers => scanTriggers message triggers
    | Throw error => throw error
    end.

(** [messages.filter(msg => !lastMessages.has(msg.id))] *)
Definition newMessagesOf (seen : JsSet.t) (messages : list ChatMessage)
  : list ChatMessage :=
  filter (fun msg => negb (JsSet.has seen (id msg))) messages.

(** The new value of [lastMessages]. *)
Definition updatedSeen (seen : JsSet.t) (newMessages : list ChatMessage) : JsSet.t :=
  JsSet.from (Js.sliceLast 50 (JsSet.toArray seen) ++ map id newMessages).

(** The part of the tick that follows the second [page.evaluate]. *)
Definition handleMessages (messages : list ChatMessage) : M unit :=
  seen <- gets lastMessages ;;
  let newMessages := newMessagesOf seen messages in
  modify (setLastMessages (updatedSeen seen newMessages)) ;;
  forOf newMessages processMessage.

Definition hasPage (st : State) : bool :=
  match page st with
  | Some _ => true
  | None => false
  end.

Definition errorCheckingText (error : string) : string :=
  "Error checking for triggers: " +:+ error.

(** One tick run from start to end.  [hasChat] is what the first
    [page.evaluate] settles with (does a [.chat-message] element exist),
    [content] what the second settles with (the elements found). *)
Definition checkForTriggers (hasChat : Result bool)
    (content : Result (list ChatElement)) : M unit :=
  st <- get ;;
  if negb (isMonitoring st) || negb (hasPage st) then ret tt
  else
    tryCatch
      (hasChatContainer <- await hasChat ;;
       if negb hasChatContainer then log "Waiting for chat to load..." "info"
       else
         messages <- await (mapResult (map mkMessage) content) ;;
         handleMessages messages)
      (fun error => log (errorCheckingText error) "error").

(** *** WebSocket connection handlers *)

(** The result of [JSON.parse] on a client message, as far as the
    handler reads it: the [type] field and the [triggers] field, which can
    be absent or hold something else than an array.  Only the comparison
    of [type] with ['setTriggers'] is read from it, so any [type] that is
    not this string, or no [type] at all, is a string different from it
    here. *)
Record ClientData := mkClientData {
  dataType : string;
  dataTriggers : TriggerWords
}.

(** [triggerWords.length] inside a template literal: the number of an
    array, a TypeError on [undefined] and [null] (its message only reaches
    [console.error]), the text [undefined] for a value without length. *)
Definition lengthText (value : TriggerWords) : Result string :=
  match value with
  | WordList triggers => Ok (Js.showNat (List.length triggers))
  | Nullish => Throw "Cannot read properties of undefined (reading 'length')"
  | OtherValue _ => Ok "undefined"
  end.

Definition updatedText (count : string) : string :=
  "Updated " +:+ count +:+ " trigger words".

(** [ws.on('message', ...)] for the socket [ws]; [parsed] is what
    [JSON.parse(message)] returns or throws; a text that parses to [null]
    makes [data.type] throw inside the same [try] and counts as a throw.
    The [catch] only writes to the console. *)
Definition onMessage (ws : nat) (parsed : Result ClientData) : M unit :=
  tryCatch
    (data <- await parsed ;;
     if String.eqb (dataType data) "setTriggers" then
       modify (setTriggerWords (dataTriggers data)) ;;
       value <- gets triggerWords ;;
       match lengthText value with
       | Ok count => emit (Send ws (LogEvent (updatedText count) "info"))
       | Throw error => throw error
       end
     else ret tt)
    (fun _ => ret tt).

(** [wsServer.on('connection', ...)] for a new socket. *)
Definition onConnection (ws : Client) : M unit :=
  modify (fun st => setClients (clients st ++ [ws]) st) ;;
  emit (Send (clientId ws) (LogEvent "Connected to chat monitor server" "info")).

(** [ws.on('close', ...)] *)
Definition onClose (ws : nat) : M unit :=
  modify (fun st =>
    setClients (filter (fun client => negb (clientId client =? ws)) (clients st)) st).

(** *** Interleaving of ticks

    [checkForTriggers] is an async function started by
    [setInterval(checkForTriggers, 3000)]: it runs until its first
    [await], and is resumed when the awaited promise settles.  Between
    these points other callbacks run.  The three pieces below are the
    runs between the suspension points. *)

Inductive Pending : Type :=
| AwaitHasChat
| AwaitMessages.

(** From the call to the first [await]; [true] when the tick reaches
    it. *)
Definition tickEnter : M bool :=
  st <- get ;;
  if negb (isMonitoring st) || negb (hasPage st) then ret false else ret true.

(** From the first [await] to the second; [true] when the tick reaches
    the second. *)
Definition tickAfterHasChat (hasChat : Result bool) : M bool :=
  tryCatch
    (hasChatContainer <- await hasChat ;;
     if negb hasChatContainer then
       log "Waiting for chat to load..." "info" ;; ret false
     else ret true)
    (fun error => log (errorCheckingText error) "error" ;; ret false).

(** From the second [await] to the end. *)
Definition tickAfterMessages (content : Result (list ChatElement)) : M unit :=
  tryCatch
    (messages <- await (mapResult (map mkMessage) content) ;;
     handleMessages messages)
    (fun error => log (errorCheckingText error) "error").

(** The server with its suspended ticks and everything sent so far. *)
Record System := mkSystem {
  appState : State;
  inFlight : list Pending;
  sent : list Output
}.

Inductive Action : Type :=
| TimerFires (t : nat)
| HasChatSettles (i : nat) (r : Result bool)
| MessagesSettle (i : nat) (r : Result (list ChatElement)).

Definition removeNth {A : Type} (i : nat) (xs : list A) : list A :=
  firstn i xs ++ skipn (S i) xs.

Definition replaceNth {A : Type} (i : nat) (x : A) (xs : list A) : list A :=
  firstn i xs ++ x :: skipn (S i) xs.

(** One callback run to its next suspension point; [None] when the
    action cannot happen in this state (the timer is not registered, or
    no tick is suspended there). *)
Definition step (sys : System) (a : Action) : option System :=
  match a with
  | TimerFires t =>
      if existsb (Nat.eqb t) (timers (appState sys)) then
        match tickEnter (appState sys) with
        | (Ok true, st, out) =>
            Some (mkSystem st (inFlight sys ++ [AwaitHasChat]) (sent sys ++ out))
        | (_, st, out) => Some (mkSystem st (inFlight sys) (sent sys ++ out))
        end
      else None
  | HasChatSettles i r =>
      match nth_error (inFlight sys) i with
      | Some AwaitHasChat =>
          match tickAfterHasChat r (appState sys) with
          | (Ok true, st, out) =>
              Some (mkSystem st (replaceNth i AwaitMessages (inFlight sys))
                             (sent sys ++ out))
          | (_, st, out) =>
              Some (mkSystem st (removeNth i (inFlight sys)) (sent sys ++ out))
          end
      | _ => None
      end
  | MessagesSettle i r =>
      match nth_error (inFlight sys) i with
      | Some AwaitMessages =>
          match tickAfterMessages r (appState sys) with
          | (_, st, out) =>
              Some (mkSystem st (removeNth i (inFlight sys)) (sent sys ++ out))
          end
      | _ => None
      end
  end.

Fixpoint steps (sys : System) (actions : list Action) : option System :=
  match actions with
  | [] => Some sys
  | a :: rest =>
      match step sys a with
      | Some sys' => steps sys' rest
      | None => None
      end
  end.

End Server.

(** ** Vocabulary of the statements *)

(** [needle] occurs in [s] as a literal substring. *)
Definition isSubstring (needle s : string) : Prop :=
  exists before after, s = before +:+ needle +:+ after.

(** What one match sends: the log line, then the trigger event, each to
    the clients that are open. *)
Definition matchOutputs (st : State) (trigger : Trigger) (message : ChatMessage)
  : list Output :=
  [ Broadcast (LogEvent (detectedText trigger message) "info") (openClients st);
    Broadcast (TriggerEvent (word trigger) (renderedMessage message))
              (openClients st) ].

(** The configured triggers, when [triggerWords] holds an array. *)
Definition configuredTriggers (st : State) : list Trigger :=
  match triggerWords st with
  | WordList triggers => triggers
  | Nullish => []
  | OtherValue _ => []
  end.

(** What the loop body sends for one new message when it does not
    throw. *)
Definition messageOutputs (toLowerCase : string -> string) (st : State)
    (message : ChatMessage) : list Output :=
  if Js.truthy (text message) then
    match find (matches toLowerCase message) (configuredTriggers st) with
    | Some trigger => matchOutputs st trigger message
    | None => []
    end
  else [].

(** Does the loop over the new messages throw?  It does when
    [triggerWords] cannot be iterated and some new message has a non-empty
    text, at the first such message. *)
Definition loopThrows (st : State) (newMessages : list ChatMessage) : bool :=
  match triggerWords st with
  | WordList _ => false
  | Nullish => existsb (fun msg => Js.truthy (text msg)) newMessages
  | OtherValue _ => existsb (fun msg => Js.truthy (text msg)) newMessages
  end.

(** The number of trigger events among the outputs. *)
Definition isTriggerOutput (o : Output) : bool :=
  match o with
  | Broadcast (TriggerEvent _ _) _ => true
  | Send _ (TriggerEvent _ _) => true
  | _ => false
  end.

Definition triggerCount (out : list Output) : nat :=
  List.length (filter isTriggerOutput out).

(** The clients an output was sent to. *)
Definition receiversOf (o : Output) : list nat :=
  match o with
  | Broadcast _ receivers => receivers
  | Send client _ => [client]
  end.

Definition stoppedOutput (st : State) : Output :=
  Broadcast (LogEvent "Monitoring stopped" "info") (openClients st).

(** The state [stopMonitoring] leaves when it runs to its end. *)
Definition stoppedState (st : State) : State :=
  {| browser := None;
     page := match browser st with Some _ => None | None => page st end;
     isMonitoring := false;
     mixcloudUrl := mixcloudUrl st;
     lastMessages := JsSet.empty;
     checkInterval := None;
     triggerWords := triggerWords st;
     clients := clients st;
     timers := match checkInterval st with
               | Some t => remove Nat.eq_dec t (timers st)
               | None => timers st
               end;
     nextTimer := nextTimer st |}.

(** The reading of "at most one tick in flight" on a run of the
    interleaving model. *)
Definition atMostOneTickInFlight (toLowerCase : string -> string)
    (sys : System) (actions : list Action) : Prop :=
  forall sys', steps toLowerCase sys actions = Some sys' ->
               List.length (inFlight sys') <= 1.


(** The reading of "stop succeeds from any state": the call returns, the
    session is idle with an empty seen set and no interval, and one
    "Monitoring stopped" log was sent. *)
Definition stopSucceeds (closed : Result unit) (st : State) : Prop :=
  let r := stopMonitoring closed st in
  resultOf r = Ok true
  /\ isMonitoring (stateOf r) = false
  /\ lastMessages (stateOf r) = JsSet.empty
  /\ checkInterval (stateOf r) = None
  /\ outputOf r = [stoppedOutput st].

(** ** Concrete inputs used to run the model *)

Module Sample.

Definition lower : string -> string := Js.asciiToLowerCase.

Definition listener : Client := mkClient 7 OPEN.

(** A session started from the initial state with one open listener and
    the given trigger words. *)
Definition activeState (triggers : list Trigger) : State :=
  stateOf (startMonitoring (Ok tt) (Ok 1) (Ok 2) (Ok tt) "https://www.mixcloud.com/live/dj/"
             (setClients [listener]
                (setTriggerWords (WordList triggers) initialState))).

(** A session whose start failed at [page.goto]: it is not monitoring, and
    the browser that was launched is still held. *)
Definition failedStartState : State :=
  stateOf (startMonitoring (Ok tt) (Ok 1) (Ok 2) (Throw "Navigation timeout")
             "https://www.mixcloud.com/live/dj/"
             (setClients [listener] initialState)).

Definition element (user body : string) : ChatElement :=
  mkChatElement (Some user) (Some body).

(** [n] elements with pairwise different texts. *)
Definition manyElements (n : nat) : list ChatElement :=
  map (fun k => element "user" (Js.showNat k)) (seq 0 n).

End Sample.

(** ** HTTP control API

    The routes of the express app.  A route that calls an async procedure
    answers from the [then] or the [catch] of its promise; the route is
    modelled with the procedure run to its end. *)

(** The fields the routes read from [req.body]; [url] can be absent,
    [triggers] can be absent or hold something else than an array. *)
Record RequestBody := mkRequestBody {
  bodyUrl : option string;
  bodyTriggers : TriggerWords
}.

Inductive ResponseBody : Type :=
| StatusBody (running : bool) (url : string)
| SuccessBody
| ErrorBody (error : string).

(** [res.status(code).json(body)]; [res.json(body)] answers 200. *)
Record Response := mkResponse {
  statusCode : nat;
  responseBody : ResponseBody
}.

(** The value of [url] when [!url] is false: present and not empty. *)
Definition givenUrl (body : RequestBody) : option string :=
  match bodyUrl body with
  | Some url => if Js.truthy url then Some url else None
  | None => None
  end.

Definition urlRequired : Response := mkResponse 400 (ErrorBody "URL is required").

Definition success : Response := mkResponse 200 SuccessBody.

Definition serverError (error : string) : Response := mkResponse 500 (ErrorBody error).

(** [GET /status] *)
Definition getStatus : M Response :=
  st <- get ;;
  ret (mkResponse 200 (StatusBody (isMonitoring st) (mixcloudUrl st))).

(** [POST /setUrl].  [closed] is what [browser.close()] settles with in the
    stop of the route, [closed'] in the stop inside [startMonitoring]. *)
Definition postSetUrl (body : RequestBody) (closed closed' : Result unit)
    (launched opened : Result nat) (navigated : Result unit) : M Response :=
  match givenUrl body with
  | None => ret urlRequired
  | Some url =>
      modify (setMixcloudUrl url) ;;
      monitoring <- gets isMonitoring ;;
      if monitoring then
        tryCatch
          (stopMonitoring closed ;;
           startMonitoring closed' launched opened navigated url ;;
           ret success)
          (fun error => ret (serverError error))
      else ret success
  end.

(** [POST /start] *)
Definition postStart (body : RequestBody) (closed : Result unit)
    (launched opened : Result nat) (navigated : Result unit) : M Response :=
  match givenUrl body with
  | None => ret urlRequired
  | Some url =>
      (if truthyWords (bodyTriggers body)
       then modify (setTriggerWords (bodyTriggers body))
       else ret tt) ;;
      tryCatch
        (startMonitoring closed launched opened navigated url ;;
         ret success)
        (fun error => ret (serverError error))
  end.

(** [POST /stop] *)
Definition postStop (closed : Result unit) : M Response :=
  tryCatch
    (stopMonitoring closed ;; ret success)
    (fun error => ret (serverError error)).

(** ** Entry points

    Everything that makes the server run: a request on a route, an event
    on a WebSocket, a firing of the interval.  [handle] runs one of them to
    its end. *)
Inductive Entry : Type :=
| GetStatus
| PostSetUrl (body : RequestBody) (closed closed' : Result unit)
             (launched opened : Result nat) (navigated : Result unit)
| PostStart (body : RequestBody) (closed : Result unit)
            (launched opened : Result nat) (navigated : Result unit)
| PostStop (closed : Result unit)
| WsConnection (ws : Client)
| WsClose (ws : nat)
| WsMessage (ws : nat) (parsed : Result ClientData)
| IntervalTick (hasChat : Result bool) (content : Result (list ChatElement)).

Definition discard {A : Type} (m : M A) : M unit :=
  fun st => match m st with (_, st', out) => (Ok tt, st', out) end.

Definition handle (toLowerCase : string -> string) (e : Entry) : M unit :=
  match e with
  | GetStatus => discard getStatus
  | PostSetUrl body closed closed' launched opened navigated =>
      discard (postSetUrl body closed closed' launched opened navigated)
  | PostStart body closed launched opened navigated =>
      discard (postStart body closed launched opened navigated)
  | PostStop closed => discard (postStop closed)
  | WsConnection ws => onConnection ws
  | WsClose ws => onClose ws
  | WsMessage ws parsed => onMessage ws parsed
  | IntervalTick hasChat content => checkForTriggers toLowerCase hasChat content
  end.

(** The state after a sequence of entries, each run to its end before the
    next. *)
Fixpoint runEntries (toLowerCase : string -> string) (entries : list Entry)
    (st : State) : State :=
  match entries with
  | [] => st
  | e :: rest => runEntries toLowerCase rest (stateOf (handle toLowerCase e st))
  end.

(** What holds between the session variables whenever no procedure is
    suspended: the registered intervals are exactly the one in
    [checkInterval]; an interval is only held while monitoring; a
    monitoring session has a browser and a page; an idle one has an empty
    seen set; a page is only held with a browser. *)
Definition consistent (st : State) : Prop :=
  timers st = match checkInterval st with Some t => [t] | None => [] end
  /\ (checkInterval st <> None -> isMonitoring st = true)
  /\ (isMonitoring st = true -> browser st <> None /\ page st <> None)
  /\ (isMonitoring st = false -> lastMessages st = JsSet.empty)
  /\ (page st <> None -> browser st <> None).

(** The events a client received, in order. *)
Definition deliveredTo (client : nat) (out : list Output) : list Event :=
  flat_map
    (fun o =>
       match o with
       | Broadcast message receivers =>
           repeat message (count_occ Nat.eq_dec receivers client)
       | Send c message => if Nat.eqb c client then [message] else []
       end)
    out.

(** The events handed to [broadcastMessage], in order. *)
Definition published (out : list Output) : list Event :=
  flat_map
    (fun o =>
       match o with
       | Broadcast message _ => [message]
       | Send _ _ => []
       end)
    out.

(** The log lines of the tick and of [startMonitoring], as sent. *)
Definition waitingOutput (st : State) : Output :=
  Broadcast (LogEvent "Waiting for chat to load..." "info") (openClients st).

Definition sampleErrorOutput (st : State) (error : string) : Output :=
  Broadcast (LogEvent ("Error checking for triggers: " +:+ error) "error")
            (openClients st).

(** What a tick that handles a sample sends: the outputs of its new
    messages; or, when the loop throws at the first new message with
    non-empty text, only the error log of the [catch]. *)
Definition tickOutputs (toLowerCase : string -> string) (st : State)
    (newMessages : list ChatMessage) : list Output :=
  if loopThrows st newMessages then [sampleErrorOutput st notIterable]
  else flat_map (messageOutputs toLowerCase st) newMessages.

Definition startingOutput (st : State) (url : string) : Output :=
  Broadcast (LogEvent ("Starting browser for: " +:+ url) "info") (openClients st).

Definition connectedOutput (st : State) : Output :=
  Broadcast (LogEvent "Connected to Mixcloud stream" "info") (openClients st).

(** The state a successful [startMonitoring] leaves: the session of [st]
    stopped if it was monitoring, then the new browser, page and interval. *)
Definition startedState (b p : nat) (url : string) (st : State) : State :=
  let before := if isMonitoring st then stoppedState st else st in
  {| browser := Some b;
     page := Some p;
     isMonitoring := true;
     mixcloudUrl := url;
     lastMessages := JsSet.empty;
     checkInterval := Some (nextTimer st);
     triggerWords := triggerWords st;
     clients := clients st;
     timers := timers before ++ [nextTimer st];
     nextTimer := S (nextTimer st) |}.

(** Is a socket with this id in [clients] with [readyState] [OPEN]? *)
Definition isOpenClient (st : State) (client : nat) : bool :=
  existsb (fun c => Nat.eqb (clientId c) client && isOpen c) (clients st).

(** The log a socket gets when it connects. *)
Definition greeting : Event := LogEvent "Connected to chat monitor server" "info".

Definition startErrorOutput (st : State) (error : string) : Output :=
  Broadcast (LogEvent ("Error starting monitoring: " +:+ error) "error")
            (openClients st).

(** The state [stopMonitoring] leaves when [browser.close()] fails: only
    the interval is gone. *)
Definition intervalCleared (st : State) : State :=
  match checkInterval st with
  | Some t =>
      setCheckInterval None
        (setTimers (remove Nat.eq_dec t (timers st)) (nextTimer st) st)
  | None => st
  end.

(** ** Facts about the JavaScript values *)

Lemma prefix_iff (needle s : string) :
  String.prefix needle s = true <-> exists rest, s = needle +:+ rest.
Proof.
  revert s. induction needle as [|c needle IH]; intros s.
  - split; [intros _; now exists s | intros _; now destruct s].
  - destruct s as [|d s]; simpl.
    + split; [discriminate | intros [rest H]; discriminate].
    + destruct (Ascii.ascii_dec c d) as [->|Hcd].
      * rewrite IH. split; intros [rest H].
        -- exists rest. now rewrite H.
        -- exists rest. now injection H.
      * split; [discriminate|].
        intros [rest H]. injection H as Hd _. congruence.
Qed.

Lemma includes_iff (s needle : string) :
  Js.includes s needle = true <-> isSubstring needle s.
Proof.
  unfold isSubstring. induction s as [|c s IH]; cbn [Js.includes].
  - rewrite orb_false_r, prefix_iff. split.
    + intros [rest H]. now exists "", rest.
    + intros [[|x b] [a H]]; simpl in H; [now exists a | discriminate].
  - rewrite orb_true_iff, prefix_iff, IH. split.
    + intros [[rest H] | [b [a H]]].
      * now exists "", rest.
      * exists (String c b), a. simpl. now rewrite H.
    + intros [[|x b] [a H]]; simpl in H.
      * left. now exists a.
      * right. injection H as _ H. now exists b, a.
Qed.

Lemma includes_empty (s : string) : Js.includes s "" = true.
Proof. apply includes_iff. exists "", s. reflexivity. Qed.

Lemma truthy_iff (s : string) : Js.truthy s = true <-> s <> "".
Proof. destruct s; simpl; split; congruence. Qed.

Lemma sliceLast_length {A : Type} (n : nat) (xs : list A) :
  List.length (Js.sliceLast n xs) <= n.
Proof. unfold Js.sliceLast. rewrite length_skipn. lia. Qed.

Lemma has_iff (s : JsSet.t) (x : string) : JsSet.has s x = true <-> In x s.
Proof.
  unfold JsSet.has. rewrite existsb_exists. split.
  - intros [y [Hin Heq]]. apply String.eqb_eq in Heq. now subst.
  - intros Hin. exists x. split; [assumption | apply String.eqb_refl].
Qed.

Lemma add_length (s : JsSet.t) (x : string) :
  List.length (JsSet.add s x) <= S (List.length s).
Proof.
  unfold JsSet.add. destruct (JsSet.has s x); [lia|].
  rewrite length_app. simpl. lia.
Qed.

Lemma add_In (s : JsSet.t) (x y : string) :
  In y (JsSet.add s x) <-> In y s \/ y = x.
Proof.
  unfold JsSet.add. destruct (JsSet.has s x) eqn:Hx.
  - apply has_iff in Hx. split; [now left | intros [H | ->]; assumption].
  - rewrite in_app_iff. simpl. intuition.
Qed.

Lemma fold_add_length (xs : list string) (s : JsSet.t) :
  List.length (fold_left JsSet.add xs s) <= List.length s + List.length xs.
Proof.
  revert s. induction xs as [|x xs IH]; intros s; simpl; [lia|].
  specialize (IH (JsSet.add s x)). pose proof (add_length s x). lia.
Qed.

Lemma fold_add_In (xs : list string) (s : JsSet.t) (y : string) :
  In y (fold_left JsSet.add xs s) <-> In y s \/ In y xs.
Proof.
  revert s. induction xs as [|x xs IH]; intros s; simpl; [intuition|].
  rewrite IH, add_In. intuition.
Qed.

Lemma from_size (xs : list string) : JsSet.size (JsSet.from xs) <= List.length xs.
Proof. unfold JsSet.size, JsSet.from. apply (fold_add_length xs JsSet.empty). Qed.

Lemma from_In (xs : list string) (y : string) : In y (JsSet.from xs) <-> In y xs.
Proof. unfold JsSet.from. rewrite fold_add_In. simpl. intuition. Qed.

(** The model keeps the elements of a set distinct, and building a set
    from distinct values keeps them all, in order. *)
Lemma add_NoDup (s : JsSet.t) (x : string) : NoDup s -> NoDup (JsSet.add s x).
Proof.
  intros Hs. unfold JsSet.add. destruct (JsSet.has s x) eqn:Hx; [assumption|].
  apply NoDup_app; [assumption | repeat constructor; intros [] |].
  intros y Hy [<- | []]. apply has_iff in Hy. congruence.
Qed.

Lemma fold_add_NoDup (xs : list string) (s : JsSet.t) :
  NoDup s -> NoDup (fold_left JsSet.add xs s).
Proof.
  revert s. induction xs as [|x xs IH]; intros s Hs; simpl; [assumption|].
  apply IH. now apply add_NoDup.
Qed.

Lemma from_NoDup (xs : list string) : NoDup (JsSet.from xs).
Proof. apply fold_add_NoDup. constructor. Qed.

Lemma fold_add_distinct (xs : list string) (s : JsSet.t) :
  NoDup (s ++ xs) -> fold_left JsSet.add xs s = s ++ xs.
Proof.
  revert s. induction xs as [|x xs IH]; intros s Hs; simpl.
  - now rewrite app_nil_r.
  - assert (Hx : JsSet.has s x = false).
    { destruct (JsSet.has s x) eqn:Hx; [|reflexivity].
      apply has_iff in Hx. apply NoDup_remove_2 in Hs.
      exfalso. apply Hs. apply in_or_app. now left. }
    unfold JsSet.add at 2. rewrite Hx.
    rewrite IH; rewrite <- app_assoc; [reflexivity | exact Hs].
Qed.

Lemma from_distinct (xs : list string) : NoDup xs -> JsSet.from xs = xs.
Proof. intros Hxs. unfold JsSet.from. now rewrite fold_add_distinct. Qed.

(** ** Running the tick *)

Section TickFacts.

Variable lower : string -> string.

Lemma scanTriggers_run (message : ChatMessage) (triggers : list Trigger) (st : State) :
  scanTriggers lower message triggers st
  = (Ok tt, st,
     match find (matches lower message) triggers with
     | Some trigger => matchOutputs st trigger message
     | None => []
     end).
Proof.
  induction triggers as [|trigger rest IH]; simpl; [reflexivity|].
  destruct (matches lower message trigger); [reflexivity | exact IH].
Qed.

Lemma loopThrows_list (st : State) (triggers : list Trigger)
    (messages : list ChatMessage) :
  triggerWords st = WordList triggers -> loopThrows st messages = false.
Proof. intros Hwords. unfold loopThrows. now rewrite Hwords. Qed.

Lemma loopThrows_nil (st : State) : loopThrows st [] = false.
Proof. unfold loopThrows. now destruct (triggerWords st). Qed.

Lemma processMessage_run (message : ChatMessage) (st : State) :
  processMessage lower message st
  = if loopThrows st [message] then (Throw notIterable, st, [])
    else (Ok tt, st, messageOutputs lower st message).
Proof.
  unfold processMessage, messageOutputs, loopThrows, configuredTriggers.
  cbn [existsb]. rewrite orb_false_r.
  destruct (Js.truthy (text message)); cbn [negb].
  - unfold bind, gets.
    destruct (triggerWords st) as [triggers| |]; cbn [iterate];
      [rewrite scanTriggers_run|..]; reflexivity.
  - now destruct (triggerWords st).
Qed.

Lemma loopThrows_cons (st : State) (message : ChatMessage)
    (rest : list ChatMessage) :
  loopThrows st (message :: rest) = loopThrows st [message] || loopThrows st rest.
Proof.
  unfold loopThrows. destruct (triggerWords st); cbn [existsb];
    now rewrite ?orb_false_r.
Qed.

Lemma messageOutputs_not_iterable (st : State) (messages : list ChatMessage)
    (message : ChatMessage) :
  loopThrows st messages = true -> messageOutputs lower st message = [].
Proof.
  unfold loopThrows, messageOutputs, configuredTriggers.
  destruct (triggerWords st); [discriminate|..]; intros _;
    now destruct (Js.truthy (text message)).
Qed.

Lemma forOf_processMessage_run (messages : list ChatMessage) (st : State) :
  forOf messages (processMessage lower) st
  = if loopThrows st messages then (Throw notIterable, st, [])
    else (Ok tt, st, flat_map (messageOutputs lower st) messages).
Proof.
  induction messages as [|message rest IH]; cbn [forOf flat_map].
  - now rewrite loopThrows_nil.
  - unfold bind. rewrite processMessage_run, (loopThrows_cons st message rest).
    destruct (loopThrows st [message]); cbn [orb]; [reflexivity|].
    rewrite IH. destruct (loopThrows st rest) eqn:Hrest; [|reflexivity].
    now rewrite (messageOutputs_not_iterable st rest message Hrest).
Qed.

Lemma handleMessages_run (messages : list ChatMessage) (st : State) :
  handleMessages lower messages st
  = let newMessages := newMessagesOf (lastMessages st) messages in
    let st' := setLastMessages (updatedSeen (lastMessages st) newMessages) st in
    if loopThrows st newMessages then (Throw notIterable, st', [])
    else (Ok tt, st', flat_map (messageOutputs lower st) newMessages).
Proof.
  unfold handleMessages, bind, gets, modify.
  rewrite forOf_processMessage_run. cbv zeta.
  change (loopThrows (setLastMessages _ st)) with (loopThrows st).
  now destruct (loopThrows st (newMessagesOf (lastMessages st) messages)).
Qed.

Lemma tickOutputs_nil (st : State) : tickOutputs lower st [] = [].
Proof. unfold tickOutputs. now rewrite loopThrows_nil. Qed.


(** A tick that passes the guard and gets the chat elements updates the
    seen set and sends the outputs of the new messages, or the error log
    when the loop throws. *)
Lemma checkForTriggers_run (elems : list ChatElement) (st : State) :
  isMonitoring st = true -> hasPage st = true ->
  checkForTriggers lower (Ok true) (Ok elems) st
  = (Ok tt,
     setLastMessages
       (updatedSeen (lastMessages st)
          (newMessagesOf (lastMessages st) (map mkMessage elems))) st,
     tickOutputs lower st (newMessagesOf (lastMessages st) (map mkMessage elems))).
Proof.
  intros Hmon Hpage. unfold checkForTriggers, bind, get, tryCatch, await.
  rewrite Hmon, Hpage. cbn [negb orb mapResult]. rewrite handleMessages_run.
  cbv zeta. unfold tickOutputs.
  now destruct (loopThrows st _).
Qed.


Lemma find_first_match {A : Type} (f : A -> bool) (before : list A) (x : A)
    (after : list A) :
  (forall y, In y before -> f y = false) -> f x = true ->
  find f (before ++ x :: after) = Some x.
Proof.
  intros Hbefore Hx. induction before as [|y before IH]; simpl.
  - now rewrite Hx.
  - rewrite (Hbefore y (or_introl eq_refl)). apply IH.
    intros z Hz. apply Hbefore. now right.
Qed.

Lemma matches_iff (message : ChatMessage) (trigger : Trigger) :
  matches lower message trigger = true
  <-> isSubstring (lower (word trigger)) (lower (text message)).
Proof. unfold matches. apply includes_iff. Qed.

Lemma matches_false_iff (message : ChatMessage) (trigger : Trigger) :
  matches lower message trigger = false
  <-> ~ isSubstring (lower (word trigger)) (lower (text message)).
Proof.
  rewrite <- matches_iff. destruct (matches lower message trigger); split;
    congruence.
Qed.

Lemma introduced_is_seen (seen : JsSet.t) (messages : list ChatMessage)
    (message : ChatMessage) :
  In message messages -> JsSet.has seen (id message) = false ->
  JsSet.has (updatedSeen seen (newMessagesOf seen messages)) (id message) = true.
Proof.
  intros Hin Hnew. apply has_iff. unfold updatedSeen. apply from_In.
  apply in_or_app. right. apply in_map. unfold newMessagesOf.
  apply filter_In. split; [assumption | now rewrite Hnew].
Qed.

End TickFacts.

(** ** Deduplication *)



(** ** Trigger matching *)

(** C2.  For a message with non-empty text, when the configured list is
    [before ++ trigger :: after], no word of [before] is (in lower case) a
    substring of the lower-cased text and the word of [trigger] is, the
    loop body sends the match log and one trigger event, both for [trigger],
    and nothing else, whatever [after] contains: the first match in
    configuration order wins and later triggers are not looked at. *)
Theorem first_match_wins (lower : string -> string) (st : State)
    (message : ChatMessage) (before : list Trigger) (trigger : Trigger)
    (after : list Trigger) :
  text message <> "" ->
  triggerWords st = WordList (before ++ trigger :: after) ->
  (forall t, In t before ->
             ~ isSubstring (lower (word t)) (lower (text message))) ->
  isSubstring (lower (word trigger)) (lower (text message)) ->
  processMessage lower message st
  = (Ok tt, st,
     [ Broadcast (LogEvent (detectedText trigger message) "info") (openClients st);
       Broadcast (TriggerEvent (word trigger) (renderedMessage message))
                 (openClients st) ])
  /\ triggerCount (outputOf (processMessage lower message st)) = 1.
Proof.
  intros Htext Hconf Hbefore Hmatch.
  assert (Hrun : processMessage lower message st
                 = (Ok tt, st, matchOutputs st trigger message)).
  { rewrite processMessage_run, (loopThrows_list st _ _ Hconf).
    unfold messageOutputs, configuredTriggers.
    apply truthy_iff in Htext. rewrite Htext, Hconf.
    rewrite find_first_match; [reflexivity | | now apply matches_iff].
    intros t Ht. apply matches_false_iff. now apply Hbefore. }
  split; [exact Hrun | now rewrite Hrun].
Qed.

Lemma first_match_wins_witness :
  let st := Sample.activeState [mkTrigger "raffle"; mkTrigger "Help"; mkTrigger "please"] in
  let message := mkMessage (Sample.element "alice" "please HELP me") in
  text message <> ""
  /\ processMessage Sample.lower message st
     = (Ok tt, st,
        [ Broadcast (LogEvent (detectedText (mkTrigger "Help") message) "info") [7];
          Broadcast (TriggerEvent "Help" "alice: please HELP me") [7] ])
  /\ triggerCount (outputOf (processMessage Sample.lower message st)) = 1.
Proof.
  intros st message.
  split; [discriminate|].
  apply (first_match_wins Sample.lower st message
           [mkTrigger "raffle"] (mkTrigger "Help") [mkTrigger "please"]).
  - discriminate.
  - reflexivity.
  - intros t [<- | []] H. apply includes_iff in H. discriminate H.
  - apply includes_iff. reflexivity.
Defined.

Lemma find_with_sure_match {A : Type} (f : A -> bool) (before : list A) (x : A)
    (after : list A) :
  f x = true ->
  exists y, find f (before ++ x :: after) = Some y
            /\ In y (before ++ [x])
            /\ ((forall z, In z before -> f z = false) -> y = x).
Proof.
  intros Hx. induction before as [|z before IH]; simpl.
  - rewrite Hx. exists x. auto.
  - destruct (f z) eqn:Hz.
    + exists z. split; [reflexivity|]. split; [now left|].
      intros Hnone. specialize (Hnone z (or_introl eq_refl)). congruence.
    + destruct IH as [y [Hfind [Hin Hfirst]]]. exists y.
      split; [assumption|]. split; [now right|].
      intros Hnone. apply Hfirst. intros w Hw. apply Hnone. now right.
Qed.

Lemma triggerCount_app (out1 out2 : list Output) :
  triggerCount (out1 ++ out2) = triggerCount out1 + triggerCount out2.
Proof. unfold triggerCount. now rewrite filter_app, length_app. Qed.

Lemma triggerCount_flat_map {A : Type} (f : A -> list Output) (p : A -> bool)
    (xs : list A) :
  (forall x, triggerCount (f x) = if p x then 1 else 0) ->
  triggerCount (flat_map f xs) = List.length (filter p xs).
Proof.
  intros Hf. induction xs as [|x xs IH]; simpl; [reflexivity|].
  rewrite triggerCount_app, Hf, IH. now destruct (p x).
Qed.

(** C10.  When the configured list contains a trigger whose word is the
    empty string, every message with non-empty text is matched: the loop
    body sends the match log and one trigger event, for a trigger that is
    the empty one or stands before it (never one configured after it), and
    for the empty one when no earlier word matches.  A tick then sends
    exactly one trigger event per new message with non-empty text. *)
Theorem empty_trigger_word_matches (lower : string -> string) (st : State)
    (before after : list Trigger) :
  lower "" = "" ->
  triggerWords st = WordList (before ++ mkTrigger "" :: after) ->
  (forall message, text message <> "" ->
     exists trigger,
       In trigger (before ++ [mkTrigger ""])
       /\ processMessage lower message st
          = (Ok tt, st,
             [ Broadcast (LogEvent (detectedText trigger message) "info")
                         (openClients st);
               Broadcast (TriggerEvent (word trigger) (renderedMessage message))
                         (openClients st) ])
       /\ ((forall t, In t before ->
              ~ isSubstring (lower (word t)) (lower (text message))) ->
           trigger = mkTrigger ""))
  /\ (forall elems, isMonitoring st = true -> hasPage st = true ->
        triggerCount (outputOf (checkForTriggers lower (Ok true) (Ok elems) st))
        = List.length
            (filter (fun msg => Js.truthy (text msg))
                    (newMessagesOf (lastMessages st) (map mkMessage elems)))).
Proof.
  intros Hlower Hconf.
  assert (Hempty : forall message, matches lower message (mkTrigger "") = true).
  { intros message. unfold matches. simpl. rewrite Hlower. apply includes_empty. }
  split.
  - intros message Htext.
    destruct (find_with_sure_match (matches lower message) before (mkTrigger "")
                after (Hempty message)) as [trigger [Hfind [Hin Hfirst]]].
    exists trigger. split; [assumption|]. split.
    + rewrite processMessage_run, (loopThrows_list st _ _ Hconf).
      unfold messageOutputs, configuredTriggers.
      apply truthy_iff in Htext. now rewrite Htext, Hconf, Hfind.
    + intros Hnone. apply Hfirst. intros t Ht.
      apply matches_false_iff. now apply Hnone.
  - intros elems Hmon Hpage.
    rewrite checkForTriggers_run by assumption.
    unfold outputOf, tickOutputs. cbn [snd].
    rewrite (loopThrows_list st _ _ Hconf). apply triggerCount_flat_map.
    intros message. unfold messageOutputs, configuredTriggers.
    destruct (Js.truthy (text message)); [|reflexivity].
    destruct (find_with_sure_match (matches lower message) before (mkTrigger "")
                after (Hempty message)) as [trigger [Hfind _]].
    now rewrite Hconf, Hfind.
Qed.

Lemma empty_trigger_word_matches_witness :
  let st := Sample.activeState [mkTrigger "raffle"; mkTrigger ""; mkTrigger "hi"] in
  let message := mkMessage (Sample.element "bob" "hi") in
  Sample.lower "" = ""
  /\ processMessage Sample.lower message st
     = (Ok tt, st,
        [ Broadcast (LogEvent (detectedText (mkTrigger "") message) "info") [7];
          Broadcast (TriggerEvent "" "bob: hi") [7] ])
  /\ triggerCount
       (outputOf (checkForTriggers Sample.lower (Ok true)
                    (Ok [Sample.element "bob" "hi"; Sample.element "eve" ""]) st))
     = 1.
Proof.
  intros st message.
  destruct (empty_trigger_word_matches Sample.lower st [mkTrigger "raffle"]
              [mkTrigger "hi"] eq_refl eq_refl) as [Hbody Htick].
  split; [reflexivity|]. split.
  - destruct (Hbody message) as [trigger [_ [Hrun Hfirst]]]; [discriminate|].
    rewrite Hrun, Hfirst; [reflexivity|].
    intros t [<- | []] H. apply includes_iff in H. discriminate H.
  - rewrite Htick; reflexivity.
Defined.

(** ** The seen set *)

(** C3.  From every state (so after any number of ticks), a tick that
    reaches the update of [lastMessages] leaves a set of at most 50 plus
    the number of that tick's new messages. *)
Theorem seen_set_bound (lower : string -> string) (st : State)
    (elems : list ChatElement) :
  isMonitoring st = true -> hasPage st = true ->
  JsSet.size (lastMessages (stateOf (checkForTriggers lower (Ok true) (Ok elems) st)))
  <= 50 + List.length (newMessagesOf (lastMessages st) (map mkMessage elems)).
Proof.
  intros Hmon Hpage.
  rewrite checkForTriggers_run by assumption.
  unfold stateOf. cbn [fst snd setLastMessages lastMessages]. unfold updatedSeen.
  etransitivity; [apply from_size|].
  rewrite length_app, length_map.
  pose proof (sliceLast_length 50 (JsSet.toArray (lastMessages st))). lia.
Qed.

Lemma seen_set_bound_witness :
  let st := Sample.activeState [] in
  isMonitoring st = true /\ hasPage st = true
  /\ JsSet.size
       (lastMessages (stateOf (checkForTriggers Sample.lower (Ok true)
                                 (Ok (Sample.manyElements 3)) st)))
     <= 50 + List.length
               (newMessagesOf (lastMessages st)
                              (map mkMessage (Sample.manyElements 3))).
Proof.
  intros st. split; [reflexivity|]. split; [reflexivity|].
  apply (seen_set_bound Sample.lower st (Sample.manyElements 3)); reflexivity.
Defined.

Lemma fold_add_extends (xs : list string) (s : JsSet.t) :
  exists added, fold_left JsSet.add xs s = s ++ added.
Proof.
  revert s. induction xs as [|x xs IH]; intros s; simpl.
  - exists []. now rewrite app_nil_r.
  - destruct (IH (JsSet.add s x)) as [added Hadded]. rewrite Hadded.
    unfold JsSet.add. destruct (JsSet.has s x).
    + now exists added.
    + exists (x :: added). now rewrite <- app_assoc.
Qed.

(** The update keeps the 50 most recently inserted identities of the old
    set, in their order, in front of what the tick adds: the oldest ones are
    the ones dropped. *)
Lemma updatedSeen_keeps_recent (seen : JsSet.t) (newMessages : list ChatMessage) :
  NoDup seen ->
  exists added,
    updatedSeen seen newMessages = Js.sliceLast 50 seen ++ added
    /\ NoDup (updatedSeen seen newMessages).
Proof.
  intros Hseen. unfold updatedSeen, JsSet.from, JsSet.toArray.
  rewrite fold_left_app.
  assert (Hrecent : NoDup (Js.sliceLast 50 seen)).
  { unfold Js.sliceLast.
    rewrite <- (firstn_skipn (List.length seen - 50) seen) in Hseen.
    now apply NoDup_app_remove_l in Hseen. }
  rewrite (fold_add_distinct (Js.sliceLast 50 seen) JsSet.empty Hrecent).
  cbn [JsSet.empty app].
  destruct (fold_add_extends (map id newMessages) (Js.sliceLast 50 seen))
    as [added Hadded].
  exists added. split; [exact Hadded|].
  now apply fold_add_NoDup.
Qed.

(** C4.  The comment on the update of [lastMessages] says "keep only the
    last 100", but nothing limits what a tick adds: a first tick that finds
    101 different messages leaves 101 identities in the set. *)
Theorem seen_set_exceeds_100 :
  JsSet.size
    (lastMessages
       (stateOf (checkForTriggers Sample.lower (Ok true)
                   (Ok (Sample.manyElements 101)) (Sample.activeState []))))
  = 101.
Proof. vm_compute. reflexivity. Qed.

(** C9.  The identity [username + ':' + text] does not determine the pair:
    the messages ([a], [b:c]) and ([a:b], [c]) are different and have the
    identity [a:b:c].  Once a tick has introduced the first, a tick that
    finds the second treats it as seen: it sends nothing and adds no
    identity to the seen set. *)
Theorem identity_collision (lower : string -> string) (st : State) :
  isMonitoring st = true -> hasPage st = true ->
  JsSet.has (lastMessages st) "a:b:c" = false ->
  let first := mkChatElement (Some "a") (Some "b:c") in
  let second := mkChatElement (Some "a:b") (Some "c") in
  let st1 := stateOf (checkForTriggers lower (Ok true) (Ok [first]) st) in
  (username (mkMessage first), text (mkMessage first))
    <> (username (mkMessage second), text (mkMessage second))
  /\ id (mkMessage first) = id (mkMessage second)
  /\ JsSet.has (lastMessages st1) (id (mkMessage second)) = true
  /\ checkForTriggers lower (Ok true) (Ok [second]) st1
     = (Ok tt, setLastMessages (updatedSeen (lastMessages st1) []) st1, []).
Proof.
  intros Hmon Hpage Hnew first second st1.
  assert (Hseen : JsSet.has (lastMessages st1) "a:b:c" = true).
  { subst st1. rewrite checkForTriggers_run by assumption.
    unfold stateOf. cbn [fst snd setLastMessages lastMessages].
    apply (introduced_is_seen (lastMessages st) [mkMessage first] (mkMessage first));
      [now left | exact Hnew]. }
  split; [discriminate|]. split; [reflexivity|]. split; [exact Hseen|].
  assert (Hmon1 : isMonitoring st1 = true).
  { subst st1. now rewrite checkForTriggers_run. }
  assert (Hpage1 : hasPage st1 = true).
  { subst st1. now rewrite checkForTriggers_run. }
  rewrite checkForTriggers_run by assumption.
  unfold newMessagesOf. cbn [map filter].
  change (id (mkMessage second)) with "a:b:c". rewrite Hseen. cbn [negb].
  now rewrite tickOutputs_nil.
Qed.

Lemma identity_collision_witness :
  let st := Sample.activeState [mkTrigger "c"] in
  let first := mkChatElement (Some "a") (Some "b:c") in
  let second := mkChatElement (Some "a:b") (Some "c") in
  let st1 := stateOf (checkForTriggers Sample.lower (Ok true) (Ok [first]) st) in
  JsSet.has (lastMessages st) "a:b:c" = false
  /\ id (mkMessage first) = id (mkMessage second)
  /\ outputOf (checkForTriggers Sample.lower (Ok true) (Ok [second]) st1) = []
  /\ lastMessages (stateOf (checkForTriggers Sample.lower (Ok true) (Ok [second]) st1))
     = ["a:b:c"].
Proof.
  intros st first second st1.
  destruct (identity_collision Sample.lower st eq_refl eq_refl eq_refl)
    as [_ [Hid [_ Hrun]]].
  split; [reflexivity|]. split; [exact Hid|].
  fold first second st1 in Hrun. rewrite Hrun. split; reflexivity.
Defined.

(** ** Control messages of a listener *)




Example setTriggers_without_array :
  onMessage 7 (Ok (mkClientData "setTriggers" Nullish)) (Sample.activeState [])
  = (Ok tt, setTriggerWords Nullish (Sample.activeState []), []).
Proof. reflexivity. Qed.

(** ** Stopping and starting *)

Lemma remove_incl (t : nat) (xs : list nat) : incl (remove Nat.eq_dec t xs) xs.
Proof. intros x Hx. now apply in_remove in Hx. Qed.

Lemma stopMonitoring_released (closed : Result unit) (st : State) :
  browser st = None \/ closed = Ok tt ->
  stopMonitoring closed st = (Ok true, stoppedState st, [stoppedOutput st]).
Proof.
  intros Hrelease. destruct st as [b p mon url seen interval triggers cs ts next].
  cbn [browser] in Hrelease.
  destruct b as [h|].
  - destruct Hrelease as [H | ->]; [discriminate|].
    destruct interval as [t|]; reflexivity.
  - destruct interval as [t|]; reflexivity.
Qed.

Lemma stopMonitoring_not_released (e : string) (st : State) :
  browser st <> None ->
  stopMonitoring (Throw e) st = (Throw e, intervalCleared st, []).
Proof.
  intros Hheld. destruct st as [b p mon url seen interval triggers cs ts next].
  cbn [browser] in Hheld.
  destruct b as [h|]; [|now elim Hheld].
  destruct interval as [t|]; reflexivity.
Qed.

(** C6, as the code has it.  [stopMonitoring] succeeds exactly when no
    browser is held or [browser.close()] succeeds, whether the session is
    monitoring or not: it then returns [true], leaves the session idle with
    an empty seen set, no browser, no interval and the cleared timer
    unregistered, and sends exactly one "Monitoring stopped" log; a further
    call from the state it leaves succeeds again, whatever
    [browser.close()] would answer, changes nothing and sends the log once
    more. *)
Theorem stop_succeeds_when_release_succeeds (closed : Result unit) (st : State) :
  (stopSucceeds closed st <-> browser st = None \/ closed = Ok tt)
  /\ (browser st = None \/ closed = Ok tt ->
      let st' := stateOf (stopMonitoring closed st) in
      browser st' = None
      /\ (forall t, checkInterval st = Some t -> ~ In t (timers st'))
      /\ (forall closed',
            stopMonitoring closed' st' = (Ok true, st', [stoppedOutput st'])
            /\ stopSucceeds closed' st')).
Proof.
  assert (Hgoes : forall closed0 st0,
            browser st0 = None \/ closed0 = Ok tt -> stopSucceeds closed0 st0).
  { intros closed0 st0 Hrelease. unfold stopSucceeds.
    rewrite (stopMonitoring_released closed0 st0 Hrelease).
    repeat split. }
  split; [split; [|apply Hgoes]|].
  - intros [Hresult _].
    destruct (browser st) as [h|] eqn:Hheld; [right | now left].
    destruct closed as [[]|e]; [reflexivity|].
    rewrite (stopMonitoring_not_released e st) in Hresult
      by (rewrite Hheld; discriminate).
    discriminate Hresult.
  - intros Hrelease st'. subst st'.
    rewrite (stopMonitoring_released closed st Hrelease).
    unfold stateOf. cbn [fst].
    split; [reflexivity|]. split.
    + intros t Ht. unfold stoppedState. cbn [timers]. rewrite Ht. apply remove_In.
    + intros closed'. split.
      * rewrite stopMonitoring_released by now left.
        destruct st; reflexivity.
      * apply Hgoes. now left.
Qed.

Lemma stop_succeeds_when_release_succeeds_witness :
  stopSucceeds (Ok tt) (Sample.activeState [])
  /\ (isMonitoring Sample.failedStartState = false
      /\ browser Sample.failedStartState = Some 1
      /\ stopSucceeds (Ok tt) Sample.failedStartState)
  /\ stopSucceeds (Throw "Target closed") initialState
  /\ browser (stateOf (stopMonitoring (Ok tt) (Sample.activeState []))) = None.
Proof.
  split; [|split; [|split]].
  - apply (proj1 (stop_succeeds_when_release_succeeds (Ok tt) (Sample.activeState []))).
    now right.
  - split; [reflexivity|]. split; [reflexivity|].
    apply (proj1 (stop_succeeds_when_release_succeeds (Ok tt) Sample.failedStartState)).
    now right.
  - apply (proj1 (stop_succeeds_when_release_succeeds (Throw "Target closed")
                    initialState)).
    now left.
  - apply (proj2 (stop_succeeds_when_release_succeeds (Ok tt) (Sample.activeState []))).
    now right.
Defined.

(** C6, as stated, fails: from a running session whose [browser.close()]
    rejects, [stopMonitoring] rejects as well; the interval is cleared, but
    [isMonitoring] stays [true] and no log is sent. *)
Lemma stop_fails_when_close_fails :
  ~ stopSucceeds (Throw "Target closed") (Sample.activeState []).
Proof. intros [Hresult _]. discriminate Hresult. Qed.

(** Being idle is not enough: after a start that failed at [page.goto] the
    session is not monitoring and still holds the browser, and a stop whose
    [browser.close()] rejects fails there too, without a log. *)
Example stop_fails_when_idle_with_browser :
  isMonitoring Sample.failedStartState = false
  /\ browser Sample.failedStartState = Some 1
  /\ ~ stopSucceeds (Throw "Target closed") Sample.failedStartState
  /\ outputOf (stopMonitoring (Throw "Target closed") Sample.failedStartState) = [].
Proof.
  split; [reflexivity|]. split; [reflexivity|]. split; [|reflexivity].
  intros [Hresult _]. discriminate Hresult.
Qed.

Example stop_after_failed_close :
  stopMonitoring (Throw "Target closed") (Sample.activeState [])
  = (Throw "Target closed",
     setTimers [] 1 (setCheckInterval None (Sample.activeState [])), []).
Proof. reflexivity. Qed.

(** C7.  When the stop that precedes the attempt (if a session is running)
    does not fail, and launching the browser, opening the page or
    navigating to [url] fails with [e], [startMonitoring] throws [e] to its
    caller, leaves [isMonitoring] false, sends an error log as its last
    output and registers no timer; a tick run in the state it leaves does
    nothing. *)
Theorem start_failure_leaves_idle (lower : string -> string)
    (closed : Result unit) (launched opened : Result nat)
    (navigated : Result unit) (url e : string) (st : State) :
  (isMonitoring st = true -> browser st <> None -> closed = Ok tt) ->
  (launched = Throw e
   \/ (exists b, launched = Ok b /\ opened = Throw e)
   \/ (exists b p, launched = Ok b /\ opened = Ok p /\ navigated = Throw e)) ->
  let r := startMonitoring closed launched opened navigated url st in
  resultOf r = Throw e
  /\ isMonitoring (stateOf r) = false
  /\ (exists out,
        outputOf r
        = out ++ [Broadcast (LogEvent ("Error starting monitoring: " +:+ e) "error")
                            (openClients st)])
  /\ nextTimer (stateOf r) = nextTimer st
  /\ incl (timers (stateOf r)) (timers st)
  /\ (forall hasChat content,
        checkForTriggers lower hasChat content (stateOf r) = (Ok tt, stateOf r, [])).
Proof.
  intros Hstop Hfail r. subst r.
  unfold startMonitoring, stopMonitoring, checkForTriggers.
  unfold tryCatch, bind, gets, get, clearInterval, modify, await, log,
    broadcastMessage, emit, throw, ret.
  destruct st as [b p mon url0 seen interval triggers cs ts next].
  cbn [browser isMonitoring] in Hstop.
  destruct Hfail as [-> | [[h [-> ->]] | [h [q [-> [-> ->]]]]]];
    destruct mon; destruct b as [h0|]; destruct interval as [t|];
    try (rewrite (Hstop eq_refl ltac:(discriminate)));
    cbn;
    (split; [reflexivity|]); (split; [reflexivity|]);
    (split; [match goal with |- exists out, ?l = _ => exists (removelast l) end;
             reflexivity|]);
    (split; [reflexivity|]);
    (split; [first [apply incl_refl | apply remove_incl]|]);
    intros hasChat content; reflexivity.
Qed.

Lemma start_failure_leaves_idle_witness :
  let st := Sample.activeState [mkTrigger "giveaway"] in
  let r := startMonitoring (Ok tt) (Ok 3) (Ok 4) (Throw "net::ERR_NAME_NOT_RESOLVED")
             "https://www.mixcloud.com/live/other/" st in
  isMonitoring st = true
  /\ resultOf r = Throw "net::ERR_NAME_NOT_RESOLVED"
  /\ isMonitoring (stateOf r) = false
  /\ timers (stateOf r) = []
  /\ checkForTriggers Sample.lower (Ok true) (Ok [Sample.element "alice" "giveaway"])
       (stateOf r)
     = (Ok tt, stateOf r, []).
Proof.
  intros st r.
  destruct (start_failure_leaves_idle Sample.lower (Ok tt) (Ok 3) (Ok 4)
              (Throw "net::ERR_NAME_NOT_RESOLVED")
              "https://www.mixcloud.com/live/other/" "net::ERR_NAME_NOT_RESOLVED" st)
    as [Hresult [Hidle [_ [_ [_ Htick]]]]].
  - intros _ _. reflexivity.
  - right; right. exists 3, 4. repeat split.
  - split; [reflexivity|]. split; [exact Hresult|]. split; [exact Hidle|].
    split; [reflexivity|]. apply Htick.
Defined.

(** ** Overlapping ticks *)

(** The three pieces of the interleaving model, run one after the other
    with nothing in between, are [checkForTriggers]. *)
Lemma checkForTriggers_by_pieces (lower : string -> string)
    (hasChat : Result bool) (content : Result (list ChatElement)) (st : State) :
  checkForTriggers lower hasChat content st
  = (entered <- tickEnter ;;
     if entered then
       continue <- tickAfterHasChat hasChat ;;
       if continue then tickAfterMessages lower content else ret tt
     else ret tt) st.
Proof.
  unfold checkForTriggers, tickEnter, tickAfterHasChat, tickAfterMessages.
  unfold tryCatch, bind, get, await, log, broadcastMessage, gets, emit, ret.
  destruct (negb (isMonitoring st) || negb (hasPage st)); [reflexivity|].
  destruct hasChat as [[|]|e]; cbn [negb mapResult]; try reflexivity.
  destruct content as [elems|e]; cbn [mapResult].
  - rewrite handleMessages_run. cbv zeta.
    now destruct (loopThrows st _).
  - reflexivity.
Qed.

Lemma timer_registered (t : nat) (ts : list nat) :
  In t ts -> existsb (Nat.eqb t) ts = true.
Proof.
  intros Hin. apply existsb_exists. exists t.
  split; [assumption | apply Nat.eqb_refl].
Qed.

(** C5, as the code has it.  There is no reentrancy guard: whenever the
    session is monitoring and has a page, a firing of a registered interval
    starts a new tick, however many ticks are still suspended at an
    [await]; [n] firings in a row add [n] ticks in flight. *)
Theorem timer_firing_always_starts_a_tick (lower : string -> string)
    (sys : System) (t n : nat) :
  In t (timers (appState sys)) ->
  isMonitoring (appState sys) = true ->
  hasPage (appState sys) = true ->
  steps lower sys (repeat (TimerFires t) n)
  = Some (mkSystem (appState sys) (inFlight sys ++ repeat AwaitHasChat n) (sent sys)).
Proof.
  intros Htimer Hmon Hpage. revert sys Htimer Hmon Hpage.
  induction n as [|n IH]; intros sys Htimer Hmon Hpage; cbn [repeat steps].
  - rewrite app_nil_r. now destruct sys.
  - assert (Hstep : step lower sys (TimerFires t)
                    = Some (mkSystem (appState sys) (inFlight sys ++ [AwaitHasChat])
                                     (sent sys))).
    { unfold step, tickEnter, bind, get, ret.
      rewrite (timer_registered t _ Htimer), Hmon, Hpage. cbn.
      now rewrite app_nil_r. }
    rewrite Hstep, IH by assumption. cbn [appState inFlight sent].
    now rewrite <- app_assoc.
Qed.

Lemma timer_firing_always_starts_a_tick_witness :
  let sys := mkSystem (Sample.activeState []) [AwaitHasChat] [] in
  In 0 (timers (appState sys))
  /\ steps Sample.lower sys (repeat (TimerFires 0) 2)
     = Some (mkSystem (Sample.activeState [])
                      [AwaitHasChat; AwaitHasChat; AwaitHasChat] []).
Proof.
  intros sys. split; [now left|].
  apply (timer_firing_always_starts_a_tick Sample.lower sys 0 2);
    [now left | reflexivity | reflexivity].
Defined.

(** C5, as stated, fails: when the interval of a fresh session fires twice
    before the first [page.evaluate] has settled, the second firing is not
    skipped and two ticks are in flight. *)
Lemma two_ticks_in_flight :
  ~ atMostOneTickInFlight Sample.lower
      (mkSystem (Sample.activeState []) [] []) [TimerFires 0; TimerFires 0].
Proof.
  intros Hone.
  assert (Hrun : steps Sample.lower (mkSystem (Sample.activeState []) [] [])
                   [TimerFires 0; TimerFires 0]
                 = Some (mkSystem (Sample.activeState [])
                                  [AwaitHasChat; AwaitHasChat] []))
    by (vm_compute; reflexivity).
  specialize (Hone _ Hrun). cbn [inFlight List.length] in Hone. lia.
Qed.

(** ** Further properties of the tick *)

(** Every way a tick can go, as one equation. *)
Lemma checkForTriggers_cases (lower : string -> string) (hasChat : Result bool)
    (content : Result (list ChatElement)) (st : State) :
  checkForTriggers lower hasChat content st
  = if negb (isMonitoring st) || negb (hasPage st) then (Ok tt, st, [])
    else
      match hasChat, content with
      | Throw e, _ => (Ok tt, st, [sampleErrorOutput st e])
      | Ok false, _ => (Ok tt, st, [waitingOutput st])
      | Ok true, Throw e => (Ok tt, st, [sampleErrorOutput st e])
      | Ok true, Ok elems =>
          let messages := map mkMessage elems in
          let newMessages := newMessagesOf (lastMessages st) messages in
          (Ok tt, setLastMessages (updatedSeen (lastMessages st) newMessages) st,
           tickOutputs lower st newMessages)
      end.
Proof.
  unfold checkForTriggers, bind, get, tryCatch, await.
  destruct (negb (isMonitoring st) || negb (hasPage st)); [reflexivity|].
  destruct hasChat as [[|]|e]; cbn [negb]; try reflexivity.
  destruct content as [elems|e]; cbn [mapResult]; [|reflexivity].
  rewrite handleMessages_run. cbv zeta. unfold tickOutputs.
  now destruct (loopThrows st _).
Qed.

Lemma setLastMessages_same (st : State) : setLastMessages (lastMessages st) st = st.
Proof. now destruct st. Qed.

Lemma messageOutputs_broadcast (lower : string -> string) (st : State)
    (message : ChatMessage) :
  Forall (fun o => exists e, o = Broadcast e (openClients st))
         (messageOutputs lower st message).
Proof.
  unfold messageOutputs. destruct (Js.truthy (text message)); [|constructor].
  destruct (find (matches lower message) (configuredTriggers st)); [|constructor].
  unfold matchOutputs. repeat constructor; eexists; reflexivity.
Qed.

Lemma tickOutputs_broadcast (lower : string -> string) (st : State)
    (messages : list ChatMessage) :
  Forall (fun o => exists e, o = Broadcast e (openClients st))
         (tickOutputs lower st messages).
Proof.
  unfold tickOutputs. destruct (loopThrows st messages).
  - repeat constructor. eexists. reflexivity.
  - apply Forall_flat_map, Forall_forall.
    intros message _. apply messageOutputs_broadcast.
Qed.

Lemma tick_outputs_broadcast (lower : string -> string) (hasChat : Result bool)
    (content : Result (list ChatElement)) (st : State) :
  Forall (fun o => exists e, o = Broadcast e (openClients st))
         (outputOf (checkForTriggers lower hasChat content st)).
Proof.
  rewrite checkForTriggers_cases.
  destruct (negb (isMonitoring st) || negb (hasPage st)); [constructor|].
  destruct hasChat as [[|]|e]; [destruct content as [elems|e]| |];
    unfold outputOf; cbn [snd];
    try (repeat constructor; eexists; reflexivity).
  apply tickOutputs_broadcast.
Qed.

(** X1.  A tick never throws and changes no variable but [lastMessages]:
    whatever the page answers, the session stays as it is (monitoring, same
    browser, page, interval, trigger words and clients), and everything the
    tick sends is a broadcast to the clients open at that time. *)
Theorem tick_keeps_session (lower : string -> string) (hasChat : Result bool)
    (content : Result (list ChatElement)) (st : State) :
  let r := checkForTriggers lower hasChat content st in
  resultOf r = Ok tt
  /\ stateOf r = setLastMessages (lastMessages (stateOf r)) st
  /\ Forall (fun o => exists e, o = Broadcast e (openClients st)) (outputOf r).
Proof.
  cbv zeta. split; [|split; [|apply tick_outputs_broadcast]];
    rewrite checkForTriggers_cases;
    destruct (negb (isMonitoring st) || negb (hasPage st));
    try destruct hasChat as [[|]|e]; try destruct content as [elems|e'];
    cbn; rewrite ?setLastMessages_same; reflexivity.
Qed.

(** X2.  When a monitoring session's tick does not get the chat content,
    because the chat is not there yet or a [page.evaluate] fails, nothing
    changes, not even [lastMessages], no trigger event is sent, and exactly
    one log is broadcast: the waiting line at level info when the chat is
    not there, the error with its message at level error when a call
    fails. *)
Theorem tick_without_content (lower : string -> string) (hasChat : Result bool)
    (content : Result (list ChatElement)) (st : State) :
  isMonitoring st = true -> hasPage st = true ->
  hasChat <> Ok true \/ (exists e, content = Throw e) ->
  let r := checkForTriggers lower hasChat content st in
  resultOf r = Ok tt
  /\ stateOf r = st
  /\ List.length (outputOf r) = 1
  /\ triggerCount (outputOf r) = 0
  /\ (hasChat = Ok false -> outputOf r = [waitingOutput st])
  /\ (forall e, hasChat = Throw e \/ (hasChat = Ok true /\ content = Throw e) ->
                outputOf r = [sampleErrorOutput st e]).
Proof.
  intros Hmon Hpage Hno. cbv zeta. rewrite checkForTriggers_cases, Hmon, Hpage.
  cbn [negb orb].
  destruct hasChat as [[|]|e].
  - destruct content as [elems|e].
    + destruct Hno as [Hno | [e He]]; [congruence | discriminate].
    + repeat split; try discriminate.
      intros e' [H | [_ H]]; [discriminate | now injection H as <-].
  - repeat split. intros e' [H | [H _]]; discriminate.
  - repeat split; try discriminate.
    intros e' [H | [H _]]; [now injection H as <- | discriminate].
Qed.

Lemma tick_without_content_witness :
  let st := Sample.activeState [mkTrigger "giveaway"] in
  let r := checkForTriggers Sample.lower (Ok true)
             (Throw "Execution context was destroyed") st in
  isMonitoring st = true
  /\ stateOf r = st
  /\ outputOf r = [sampleErrorOutput st "Execution context was destroyed"].
Proof.
  intros st r.
  destruct (tick_without_content Sample.lower (Ok true)
              (Throw "Execution context was destroyed") st eq_refl eq_refl)
    as [_ [Hstate [_ [_ [_ Herror]]]]].
  - right. eexists. reflexivity.
  - split; [reflexivity|]. split; [exact Hstate|].
    apply Herror. right. split; reflexivity.
Defined.











Lemma sliceLast_all {A : Type} (n : nat) (xs : list A) :
  List.length xs <= n -> Js.sliceLast n xs = xs.
Proof.
  intros Hlen. unfold Js.sliceLast.
  replace (List.length xs - n) with 0 by lia. reflexivity.
Qed.

Lemma sliceLast_incl {A : Type} (n : nat) (xs : list A) (x : A) :
  In x (Js.sliceLast n xs) -> In x xs.
Proof.
  unfold Js.sliceLast. intros Hin.
  rewrite <- (firstn_skipn (List.length xs - n) xs). apply in_or_app. now right.
Qed.

Lemma updatedSeen_In (seen : JsSet.t) (messages : list ChatMessage) (x : string) :
  In x (updatedSeen seen (newMessagesOf seen messages))
  <-> In x (Js.sliceLast 50 seen)
      \/ (exists message, In message messages /\ id message = x
                          /\ JsSet.has seen x = false).
Proof.
  unfold updatedSeen, JsSet.toArray. rewrite from_In, in_app_iff, in_map_iff.
  unfold newMessagesOf. split.
  - intros [Hold | [message [Hid Hin]]]; [now left | right].
    apply filter_In in Hin. destruct Hin as [Hin Hnew].
    exists message. subst x. repeat split; [assumption|].
    now destruct (JsSet.has seen (id message)).
  - intros [Hold | [message [Hin [Hid Hnew]]]]; [now left | right].
    exists message. split; [assumption|].
    apply filter_In. split; [assumption|]. now rewrite Hid, Hnew.
Qed.

Lemma newMessagesOf_nil (seen : JsSet.t) (messages : list ChatMessage) :
  (forall message, In message messages -> JsSet.has seen (id message) = true) ->
  newMessagesOf seen messages = [].
Proof.
  intros Hseen. unfold newMessagesOf.
  induction messages as [|message rest IH]; [reflexivity|].
  cbn [filter]. rewrite (Hseen message (or_introl eq_refl)). cbn [negb].
  apply IH. intros m Hm. apply Hseen. now right.
Qed.


(** X6.  While the seen set holds at most 50 identities nothing is
    evicted: after a tick has handled a sample, a tick that finds the same
    elements again, or any part of them, sends nothing. *)
Theorem repeated_sample_is_silent (lower : string -> string) (st : State)
    (elems again : list ChatElement) :
  isMonitoring st = true -> hasPage st = true ->
  JsSet.size (lastMessages st) <= 50 ->
  incl again elems ->
  let st1 := stateOf (checkForTriggers lower (Ok true) (Ok elems) st) in
  outputOf (checkForTriggers lower (Ok true) (Ok again) st1) = []
  /\ (forall x, In x (lastMessages st) -> In x (lastMessages st1)).
Proof.
  intros Hmon Hpage Hsize Hincl. cbv zeta.
  rewrite (checkForTriggers_cases lower (Ok true) (Ok elems) st), Hmon, Hpage.
  cbn [negb orb]. unfold stateOf. cbn [fst snd].
  rewrite checkForTriggers_cases.
  rewrite (Hmon : isMonitoring (setLastMessages _ st) = true).
  rewrite (Hpage : hasPage (setLastMessages _ st) = true).
  cbn [negb orb lastMessages setLastMessages]. unfold outputOf. cbn [snd].
  assert (Hkept : forall x, In x (lastMessages st) ->
            In x (updatedSeen (lastMessages st)
                    (newMessagesOf (lastMessages st) (map mkMessage elems)))).
  { intros x Hx. apply updatedSeen_In. left.
    now rewrite (sliceLast_all 50 (lastMessages st) Hsize). }
  split; [|exact Hkept].
  rewrite (newMessagesOf_nil _ (map mkMessage again));
    [now rewrite tickOutputs_nil|].
  intros message Hin. apply has_iff.
  apply in_map_iff in Hin. destruct Hin as [el [<- Hel]].
  destruct (JsSet.has (lastMessages st) (id (mkMessage el))) eqn:Hseen.
  - apply Hkept. now apply has_iff.
  - apply updatedSeen_In. right. exists (mkMessage el).
    repeat split; [|assumption]. apply in_map. now apply Hincl.
Qed.

Lemma repeated_sample_is_silent_witness :
  let st := Sample.activeState [mkTrigger "giveaway"] in
  let alice := Sample.element "alice" "any giveaway soon?" in
  let bob := Sample.element "bob" "giveaway when" in
  let st1 := stateOf (checkForTriggers Sample.lower (Ok true) (Ok [alice; bob]) st) in
  JsSet.size (lastMessages st) <= 50
  /\ triggerCount (outputOf (checkForTriggers Sample.lower (Ok true) (Ok [alice; bob]) st))
     = 2
  /\ outputOf (checkForTriggers Sample.lower (Ok true) (Ok [bob; alice; bob]) st1) = [].
Proof.
  intros st alice bob st1.
  destruct (repeated_sample_is_silent Sample.lower st [alice; bob] [bob; alice; bob])
    as [Hsilent _].
  - reflexivity.
  - reflexivity.
  - cbn. lia.
  - intros x [<- | [<- | [<- | []]]]; cbn; auto.
  - split; [cbn; lia|]. split; [reflexivity | exact Hsilent].
Defined.



(** X8.  New trigger words apply to new messages only: after a
    [setTriggers] message, a tick whose sampled messages are all in the
    seen set sends nothing, whatever the new words are. *)
Theorem new_triggers_do_not_rescan (lower : string -> string) (st : State)
    (ws : nat) (words : list Trigger) (elems : list ChatElement) :
  (forall el, In el elems -> JsSet.has (lastMessages st) (id (mkMessage el)) = true) ->
  let st1 := stateOf (onMessage ws (Ok (mkClientData "setTriggers" (WordList words))) st) in
  triggerWords st1 = WordList words
  /\ lastMessages st1 = lastMessages st
  /\ outputOf (checkForTriggers lower (Ok true) (Ok elems) st1) = [].
Proof.
  intros Hseen. cbv zeta. split; [reflexivity|]. split; [reflexivity|].
  rewrite checkForTriggers_cases.
  destruct (negb _ || negb _); [reflexivity|].
  unfold outputOf. cbn [snd].
  rewrite newMessagesOf_nil; [now rewrite tickOutputs_nil|].
  intros message Hin. apply in_map_iff in Hin. destruct Hin as [el [<- Hel]].
  now apply Hseen.
Qed.

Lemma new_triggers_do_not_rescan_witness :
  let st0 := Sample.activeState [mkTrigger "raffle"] in
  let alice := Sample.element "alice" "any giveaway soon?" in
  let st := stateOf (checkForTriggers Sample.lower (Ok true) (Ok [alice]) st0) in
  let st1 := stateOf (onMessage 7 (Ok (mkClientData "setTriggers"
                                        (WordList [mkTrigger "giveaway"]))) st) in
  outputOf (checkForTriggers Sample.lower (Ok true) (Ok [alice]) st0) = []
  /\ triggerWords st1 = WordList [mkTrigger "giveaway"]
  /\ outputOf (checkForTriggers Sample.lower (Ok true) (Ok [alice]) st1) = [].
Proof.
  intros st0 alice st st1.
  destruct (new_triggers_do_not_rescan Sample.lower st 7 [mkTrigger "giveaway"] [alice])
    as [Hwords [_ Hsilent]].
  - intros el [<- | []]. reflexivity.
  - split; [reflexivity|]. split; [exact Hwords | exact Hsilent].
Defined.

(** ** The broadcast hub *)

Lemma count_occ_openClients (st : State) (client : nat) :
  NoDup (map clientId (clients st)) ->
  count_occ Nat.eq_dec (openClients st) client
  = if isOpenClient st client then 1 else 0.
Proof.
  unfold openClients, isOpenClient.
  induction (clients st) as [|c cs IH]; intros Hids; [reflexivity|].
  cbn [map] in Hids. apply NoDup_cons_iff in Hids. destruct Hids as [Hfresh Hids].
  specialize (IH Hids). cbn [filter existsb].
  assert (Hrest : clientId c = client ->
                  existsb (fun c0 => (clientId c0 =? client) && isOpen c0) cs = false).
  { intros <-. destruct (existsb _ cs) eqn:Hex; [|reflexivity].
    apply existsb_exists in Hex. destruct Hex as [c0 [Hin Hc0]].
    apply andb_true_iff in Hc0. destruct Hc0 as [Hid _].
    apply Nat.eqb_eq in Hid. exfalso. apply Hfresh. rewrite <- Hid.
    now apply in_map. }
  destruct (isOpen c); cbn [map count_occ andb].
  - destruct (Nat.eq_dec (clientId c) client) as [Heq | Hne].
    + rewrite IH, (Hrest Heq). apply Nat.eqb_eq in Heq. now rewrite Heq.
    + apply Nat.eqb_neq in Hne. now rewrite Hne.
  - now rewrite andb_false_r.
Qed.

Lemma deliveredTo_broadcasts (receivers : list nat) (client : nat) (out : list Output) :
  Forall (fun o => exists e, o = Broadcast e receivers) out ->
  (count_occ Nat.eq_dec receivers client = 0 -> deliveredTo client out = [])
  /\ (count_occ Nat.eq_dec receivers client = 1 ->
      deliveredTo client out = published out).
Proof.
  intros Hout. induction Hout as [|o out [e ->] _ [IH0 IH1]]; [now split|].
  change (deliveredTo client (Broadcast e receivers :: out))
    with (repeat e (count_occ Nat.eq_dec receivers client) ++ deliveredTo client out).
  change (published (Broadcast e receivers :: out)) with ([e] ++ published out).
  split; intros Hk; rewrite Hk.
  - now rewrite IH0.
  - now rewrite IH1.
Qed.

(** X9.  Fan-out of a tick: when the sockets in [clients] are distinct, a
    client that is in the list with [readyState] [OPEN] receives every event
    the tick publishes, once each and in order, and any other client
    receives nothing. *)
Theorem tick_fan_out (lower : string -> string) (hasChat : Result bool)
    (content : Result (list ChatElement)) (st : State) (client : nat) :
  NoDup (map clientId (clients st)) ->
  let out := outputOf (checkForTriggers lower hasChat content st) in
  deliveredTo client out = if isOpenClient st client then published out else [].
Proof.
  intros Hids. cbv zeta.
  destruct (deliveredTo_broadcasts (openClients st) client _
              (tick_outputs_broadcast lower hasChat content st)) as [H0 H1].
  rewrite (count_occ_openClients st client Hids) in H0, H1.
  destruct (isOpenClient st client); [now apply H1 | now apply H0].
Qed.

Lemma tick_fan_out_witness :
  let st := setClients [mkClient 7 OPEN; mkClient 8 CLOSED; mkClient 9 OPEN]
              (Sample.activeState [mkTrigger "giveaway"]) in
  let out := outputOf (checkForTriggers Sample.lower (Ok true)
                         (Ok [Sample.element "alice" "any giveaway soon?"]) st) in
  NoDup (map clientId (clients st))
  /\ deliveredTo 9 out
     = [ LogEvent (detectedText (mkTrigger "giveaway")
                     (mkMessage (Sample.element "alice" "any giveaway soon?"))) "info";
         TriggerEvent "giveaway" "alice: any giveaway soon?" ]
  /\ deliveredTo 8 out = [].
Proof.
  intros st out.
  assert (Hids : NoDup (map clientId (clients st))).
  { repeat constructor; cbn; intuition discriminate. }
  split; [exact Hids|]. split.
  - unfold out.
    rewrite (tick_fan_out Sample.lower (Ok true) _ st 9 Hids). reflexivity.
  - unfold out.
    rewrite (tick_fan_out Sample.lower (Ok true) _ st 8 Hids). reflexivity.
Defined.

Lemma filter_idem {A : Type} (f : A -> bool) (xs : list A) :
  filter f (filter f xs) = filter f xs.
Proof.
  induction xs as [|x xs IH]; [reflexivity|]. cbn [filter].
  destruct (f x) eqn:Hx; [|exact IH]. cbn [filter]. now rewrite Hx, IH.
Qed.

Lemma filter_all {A : Type} (f : A -> bool) (xs : list A) :
  (forall x, In x xs -> f x = true) -> filter f xs = xs.
Proof.
  induction xs as [|x xs IH]; intros Hall; [reflexivity|]. cbn [filter].
  rewrite (Hall x (or_introl eq_refl)), IH; [reflexivity|].
  intros y Hy. apply Hall. now right.
Qed.

Lemma setClients_same (st : State) : setClients (clients st) st = st.
Proof. now destruct st. Qed.

(** X10.  Closing a socket unsubscribes it: [onClose] sends nothing, takes
    the socket out of [clients], keeps every other client (in order) and
    every other variable, and can be repeated without effect; no tick
    afterwards sends anything to the closed socket. *)
Theorem close_unsubscribes (lower : string -> string) (ws : nat) (st : State) :
  let r := onClose ws st in
  resultOf r = Ok tt
  /\ outputOf r = []
  /\ stateOf r = setClients (filter (fun c => negb (clientId c =? ws)) (clients st)) st
  /\ ~ In ws (map clientId (clients (stateOf r)))
  /\ onClose ws (stateOf r) = (Ok tt, stateOf r, [])
  /\ (forall hasChat content,
        deliveredTo ws (outputOf (checkForTriggers lower hasChat content (stateOf r)))
        = []).
Proof.
  cbv zeta. unfold onClose, modify, resultOf, stateOf, outputOf. cbn [fst snd].
  split; [reflexivity|]. split; [reflexivity|]. split; [reflexivity|].
  assert (Hgone : ~ In ws (map clientId
                    (filter (fun c => negb (clientId c =? ws)) (clients st)))).
  { intros Hin. apply in_map_iff in Hin. destruct Hin as [c [Hid Hin]].
    apply filter_In in Hin. destruct Hin as [_ Hne].
    apply Nat.eqb_eq in Hid. now rewrite Hid in Hne. }
  split; [exact Hgone|]. split.
  - cbn [clients setClients]. rewrite filter_idem. now destruct st.
  - intros hasChat content.
    apply (deliveredTo_broadcasts _ ws _ (tick_outputs_broadcast lower hasChat content _)).
    apply count_occ_not_In.
    unfold openClients. cbn [clients setClients]. intros Hin.
    apply in_map_iff in Hin. destruct Hin as [c [Hid Hin]].
    apply filter_In in Hin. destruct Hin as [Hin _].
    apply Hgone. apply in_map_iff. now exists c.
Qed.

(** X11.  A new connection is appended to [clients] and greeted alone: the
    "Connected" log goes to the new socket and to no other.  When the socket
    was not in [clients] before, closing it afterwards gives back the state
    before the connection. *)
Theorem connection_round_trip (ws : Client) (st : State) :
  ~ In (clientId ws) (map clientId (clients st)) ->
  let r := onConnection ws st in
  clients (stateOf r) = clients st ++ [ws]
  /\ deliveredTo (clientId ws) (outputOf r) = [greeting]
  /\ (forall other, other <> clientId ws -> deliveredTo other (outputOf r) = [])
  /\ stateOf (onClose (clientId ws) (stateOf r)) = st.
Proof.
  intros Hfresh. cbv zeta.
  unfold onConnection, onClose, bind, modify, emit, stateOf, outputOf.
  cbn [fst snd app clients setClients deliveredTo flat_map].
  split; [reflexivity|]. split; [now rewrite Nat.eqb_refl|]. split.
  - intros other Hother. apply not_eq_sym, Nat.eqb_neq in Hother. now rewrite Hother.
  - rewrite filter_app. cbn [filter]. rewrite Nat.eqb_refl. cbn [negb].
    rewrite app_nil_r.
    assert (Hall : filter (fun c => negb (clientId c =? clientId ws)) (clients st)
                   = clients st).
    { apply filter_all. intros c Hin.
      apply negb_true_iff, Nat.eqb_neq. intros Heq. apply Hfresh.
      rewrite <- Heq. now apply in_map. }
    rewrite Hall. destruct st. reflexivity.
Qed.

Lemma connection_round_trip_witness :
  let st := Sample.activeState [] in
  let ws := mkClient 8 OPEN in
  ~ In (clientId ws) (map clientId (clients st))
  /\ clients (stateOf (onConnection ws st)) = [Sample.listener; ws]
  /\ stateOf (onClose 8 (stateOf (onConnection ws st))) = st.
Proof.
  intros st ws.
  assert (Hfresh : ~ In (clientId ws) (map clientId (clients st))).
  { cbn. intuition discriminate. }
  destruct (connection_round_trip ws st Hfresh) as [Hclients [_ [_ Hback]]].
  split; [exact Hfresh|]. split; [exact Hclients | exact Hback].
Defined.

(** X12.  The message handler never throws and never touches anything
    but [triggerWords]; what it sends goes to the sending socket; a message
    that does not parse, or whose [type] is not [setTriggers], changes
    nothing and gets no answer. *)
Theorem message_handler_is_contained (ws : nat) (parsed : Result ClientData)
    (st : State) :
  let r := onMessage ws parsed st in
  resultOf r = Ok tt
  /\ stateOf r = setTriggerWords (triggerWords (stateOf r)) st
  /\ (forall o, In o (outputOf r) -> receiversOf o = [ws])
  /\ ((forall data, parsed = Ok data -> dataType data <> "setTriggers") ->
      r = (Ok tt, st, [])).
Proof.
  cbv zeta. unfold onMessage, tryCatch, bind, await, modify, gets, emit, ret.
  assert (Hsame : setTriggerWords (triggerWords st) st = st) by now destruct st.
  destruct parsed as [[type value]|e]; cbn [dataType dataTriggers].
  - destruct (String.eqb type "setTriggers") eqn:Htype.
    + apply String.eqb_eq in Htype.
      assert (Hnot : (forall data, Ok (mkClientData type value) = Ok data ->
                        dataType data <> "setTriggers") -> False)
        by (intros Hother; now apply (Hother _ eq_refl)).
      destruct value; cbn; repeat split;
        try (intros o [<- | []]; reflexivity); try (intros o []);
        try (intros Hother; now elim (Hnot Hother)).
    + cbn. rewrite Hsame. repeat split. intros o [].
  - cbn. rewrite Hsame. repeat split. intros o [].
Qed.

(** ** Starting, stopping and the control routes *)

(** Every way [stopMonitoring] can go. *)
Lemma stopMonitoring_cases (closed : Result unit) (st : State) :
  stopMonitoring closed st
  = match browser st, closed with
    | Some _, Throw e => (Throw e, intervalCleared st, [])
    | _, _ => (Ok true, stoppedState st, [stoppedOutput st])
    end.
Proof.
  destruct st as [b p mon url seen interval triggers cs ts next].
  destruct b as [h|]; destruct closed as [[]|e]; destruct interval as [t|];
    reflexivity.
Qed.

(** Every way [startMonitoring] can go. *)
Lemma startMonitoring_cases (closed : Result unit) (launched opened : Result nat)
    (navigated : Result unit) (url : string) (st : State) :
  startMonitoring closed launched opened navigated url st
  = match (if isMonitoring st then browser st else None), closed with
    | Some _, Throw e => (Throw e, intervalCleared st, [])
    | _, _ =>
        let before := if isMonitoring st then stoppedState st else st in
        let pre := if isMonitoring st then [stoppedOutput st] else [] in
        match launched, opened, navigated with
        | Throw e, _, _ =>
            (Throw e, before, pre ++ [startingOutput st url; startErrorOutput st e])
        | Ok b, Throw e, _ =>
            (Throw e, setBrowser (Some b) before,
             pre ++ [startingOutput st url; startErrorOutput st e])
        | Ok b, Ok p, Throw e =>
            (Throw e, setPage (Some p) (setBrowser (Some b) before),
             pre ++ [startingOutput st url; startErrorOutput st e])
        | Ok b, Ok p, Ok _ =>
            (Ok true, startedState b p url st,
             pre ++ [startingOutput st url; connectedOutput st])
        end
    end.
Proof.
  destruct st as [b p mon url0 seen interval triggers cs ts next].
  destruct mon; destruct b as [h|]; destruct closed as [[]|e];
    destruct interval as [t|];
    destruct launched as [b'|e1]; try destruct opened as [p'|e2];
    try destruct navigated as [[]|e3]; reflexivity.
Qed.

Lemma remove_single (t : nat) : remove Nat.eq_dec t [t] = [].
Proof. cbn. destruct (Nat.eq_dec t t); [reflexivity | congruence]. Qed.

Lemma consistent_idle_timers (st : State) :
  consistent st ->
  timers (if isMonitoring st then stoppedState st else st) = [].
Proof.
  intros [Htimers [Hinterval _]].
  destruct (isMonitoring st) eqn:Hmon.
  - unfold stoppedState. cbn [timers]. rewrite Htimers.
    destruct (checkInterval st) as [t|]; [apply remove_single | reflexivity].
  - rewrite Htimers. destruct (checkInterval st) as [t|]; [|reflexivity].
    assert (H : false = true) by (apply Hinterval; discriminate).
    discriminate H.
Qed.

(** X13.  Restart: when the stop that comes first on a running session
    succeeds and the browser, the page and the navigation succeed,
    [startMonitoring] returns [true] and leaves a monitoring session on
    [url] with the new browser and page and an empty seen set, after
    sending "Monitoring stopped" (only if a session was running), "Starting
    browser" and "Connected", in this order.  From a consistent state the
    new interval is the only one registered: the old one was cleared
    first. *)
Theorem start_succeeds (closed : Result unit) (b p : nat) (url : string)
    (st : State) :
  (isMonitoring st = true -> browser st <> None -> closed = Ok tt) ->
  let r := startMonitoring closed (Ok b) (Ok p) (Ok tt) url st in
  r = (Ok true, startedState b p url st,
       (if isMonitoring st then [stoppedOutput st] else [])
         ++ [startingOutput st url; connectedOutput st])
  /\ isMonitoring (stateOf r) = true
  /\ mixcloudUrl (stateOf r) = url
  /\ lastMessages (stateOf r) = JsSet.empty
  /\ browser (stateOf r) = Some b
  /\ page (stateOf r) = Some p
  /\ checkInterval (stateOf r) = Some (nextTimer st)
  /\ (consistent st -> timers (stateOf r) = [nextTimer st]).
Proof.
  intros Hstop. cbv zeta. rewrite startMonitoring_cases.
  assert (Hrun : match (if isMonitoring st then browser st else None), closed with
                 | Some _, Throw e => false
                 | _, _ => true
                 end = true).
  { destruct (isMonitoring st); [|reflexivity].
    destruct (browser st) as [h|]; [|reflexivity].
    rewrite (Hstop eq_refl ltac:(discriminate)). reflexivity. }
  destruct (if isMonitoring st then browser st else None) as [h|];
    destruct closed as [[]|e]; try discriminate Hrun;
    (split; [reflexivity|]); unfold stateOf; cbn [fst snd];
    repeat (split; [reflexivity|]);
    intros Hcons; unfold startedState; cbn [timers];
    now rewrite (consistent_idle_timers st Hcons).
Qed.

Lemma start_succeeds_witness :
  let st := Sample.activeState [mkTrigger "giveaway"] in
  let r := startMonitoring (Ok tt) (Ok 3) (Ok 4) (Ok tt) "https://www.mixcloud.com/live/b/" st in
  consistent st
  /\ resultOf r = Ok true
  /\ mixcloudUrl (stateOf r) = "https://www.mixcloud.com/live/b/"
  /\ timers (stateOf r) = [1]
  /\ published (outputOf r)
     = [ LogEvent "Monitoring stopped" "info";
         LogEvent "Starting browser for: https://www.mixcloud.com/live/b/" "info";
         LogEvent "Connected to Mixcloud stream" "info" ].
Proof.
  intros st r.
  assert (Hcons : consistent st).
  { unfold consistent. cbn. repeat split; intros; congruence. }
  destruct (start_succeeds (Ok tt) 3 4 "https://www.mixcloud.com/live/b/" st)
    as [Hrun [_ [Hurl [_ [_ [_ [_ Htimers]]]]]]].
  - intros _ _. reflexivity.
  - split; [exact Hcons|]. fold r in Hrun, Hurl, Htimers.
    split; [now rewrite Hrun|]. split; [exact Hurl|].
    split; [exact (Htimers Hcons)|]. now rewrite Hrun.
Defined.

(** X14.  A control request without a usable [url] (absent, or the empty
    string) is answered 400 "URL is required" by [/start] and by [/setUrl]
    and has no effect at all: no variable changes, and [/start] does not
    take the [triggers] of such a request. *)
Theorem missing_url_is_rejected (body : RequestBody) (closed closed' : Result unit)
    (launched opened : Result nat) (navigated : Result unit) (st : State) :
  bodyUrl body = None \/ bodyUrl body = Some "" ->
  postStart body closed launched opened navigated st
  = (Ok (mkResponse 400 (ErrorBody "URL is required")), st, [])
  /\ postSetUrl body closed closed' launched opened navigated st
     = (Ok (mkResponse 400 (ErrorBody "URL is required")), st, []).
Proof.
  intros Hurl. unfold postStart, postSetUrl, givenUrl.
  destruct Hurl as [-> | ->]; split; reflexivity.
Qed.

Lemma missing_url_is_rejected_witness :
  let st := Sample.activeState [mkTrigger "giveaway"] in
  let body := mkRequestBody (Some "") (WordList [mkTrigger "raffle"]) in
  postStart body (Ok tt) (Ok 3) (Ok 4) (Ok tt) st
  = (Ok (mkResponse 400 (ErrorBody "URL is required")), st, []).
Proof.
  intros st body.
  apply (missing_url_is_rejected body (Ok tt) (Ok tt) (Ok 3) (Ok 4) (Ok tt) st).
  now right.
Defined.

(** X15.  [/stop] always answers: 200 when no browser is held or closing
    it succeeds, and then [/status] reports [running: false] with the url
    unchanged; 500 with the error's message exactly when a browser is held
    and closing it fails, and then the session is still reported as running
    as before although its interval is gone. *)
Theorem stop_route_answers (closed : Result unit) (st : State) :
  let r := postStop closed st in
  (resultOf r = Ok success
   \/ exists e, resultOf r = Ok (serverError e))
  /\ (resultOf r = Ok success <-> (browser st = None \/ closed = Ok tt))
  /\ (forall e, resultOf r = Ok (serverError e)
                <-> (browser st <> None /\ closed = Throw e))
  /\ (resultOf r = Ok success ->
      getStatus (stateOf r)
      = (Ok (mkResponse 200 (StatusBody false (mixcloudUrl st))), stateOf r, []))
  /\ (forall e, resultOf r = Ok (serverError e) ->
      isMonitoring (stateOf r) = isMonitoring st
      /\ checkInterval (stateOf r) = None
      /\ outputOf r = []).
Proof.
  cbv zeta. unfold postStop, tryCatch, bind. rewrite stopMonitoring_cases.
  destruct (browser st) as [h|] eqn:Hb; destruct closed as [[]|e];
    unfold resultOf, stateOf, outputOf, ret; cbn [fst snd app].
  - split; [now left|]. split; [split; auto|]. split; [|split].
    + intros e. split; [discriminate | intros [_ H]; discriminate].
    + reflexivity.
    + discriminate.
  - split; [right; now exists e|]. split; [|split; [|split]].
    + split; [discriminate | intros [H | H]; discriminate].
    + intros e'. split.
      * intros H. injection H as <-. split; [discriminate | reflexivity].
      * intros [_ H]. now injection H as <-.
    + discriminate.
    + intros e' _. unfold intervalCleared.
      destruct (checkInterval st) eqn:Hi; cbn; auto.
  - split; [now left|]. split; [split; auto|]. split; [|split].
    + intros e. split; [discriminate | intros [H _]; congruence].
    + reflexivity.
    + discriminate.
  - split; [now left|]. split; [split; auto|]. split; [|split].
    + intros e'. split; [discriminate | intros [H _]; congruence].
    + reflexivity.
    + discriminate.
Qed.

(** What [startMonitoring] does to the variables the routes report,
    whatever happens. *)
Lemma startMonitoring_fields (closed : Result unit) (launched opened : Result nat)
    (navigated : Result unit) (url : string) (st : State) :
  let r := startMonitoring closed launched opened navigated url st in
  triggerWords (stateOf r) = triggerWords st
  /\ (forall v, resultOf r = Ok v ->
        v = true /\ isMonitoring (stateOf r) = true
        /\ mixcloudUrl (stateOf r) = url
        /\ lastMessages (stateOf r) = JsSet.empty)
  /\ (forall e, resultOf r = Throw e -> mixcloudUrl (stateOf r) = mixcloudUrl st).
Proof.
  cbv zeta. rewrite startMonitoring_cases.
  destruct st as [b p mon url0 seen interval triggers cs ts next].
  cbn [isMonitoring browser].
  destruct mon; destruct b as [h|]; destruct closed as [[]|e];
    destruct interval as [t|];
    destruct launched as [b'|e1]; try destruct opened as [p'|e2];
    try destruct navigated as [[]|e3];
    (split; [reflexivity|]); split; intros x Hx;
    try discriminate Hx; try reflexivity;
    injection Hx as <-; repeat split.
Qed.

(** X16.  [/start] with a url always answers 200 or 500 with the error's
    message.  After a 200, [/status] reports [running: true] with that
    url and the seen set is empty.  After a 500 the reported url is the one
    from before the request.  The [triggers] of the request, when truthy,
    replace the trigger words in both cases, array or not. *)
Theorem start_route_answers (body : RequestBody) (closed : Result unit)
    (launched opened : Result nat) (navigated : Result unit) (url : string)
    (st : State) :
  givenUrl body = Some url ->
  let r := postStart body closed launched opened navigated st in
  (resultOf r = Ok success \/ exists e, resultOf r = Ok (serverError e))
  /\ triggerWords (stateOf r)
     = (if truthyWords (bodyTriggers body) then bodyTriggers body
        else triggerWords st)
  /\ (resultOf r = Ok success ->
      getStatus (stateOf r)
      = (Ok (mkResponse 200 (StatusBody true url)), stateOf r, [])
      /\ lastMessages (stateOf r) = JsSet.empty)
  /\ (forall e, resultOf r = Ok (serverError e) ->
      mixcloudUrl (stateOf r) = mixcloudUrl st).
Proof.
  intros Hurl. cbv zeta. unfold postStart. rewrite Hurl.
  set (st0 := if truthyWords (bodyTriggers body)
              then setTriggerWords (bodyTriggers body) st else st).
  assert (Hrun : forall k : unit -> M Response,
            bind (if truthyWords (bodyTriggers body)
                  then modify (setTriggerWords (bodyTriggers body))
                  else ret tt) k st = k tt st0).
  { intros k. unfold bind, st0. destruct (truthyWords (bodyTriggers body)); cbn;
      now destruct (k tt _) as [[r s] o]. }
  rewrite Hrun. clear Hrun.
  assert (Htrig : triggerWords st0
                  = (if truthyWords (bodyTriggers body) then bodyTriggers body
                     else triggerWords st))
    by (unfold st0; now destruct (truthyWords (bodyTriggers body))).
  assert (Hurl0 : mixcloudUrl st0 = mixcloudUrl st)
    by (unfold st0; now destruct (truthyWords (bodyTriggers body))).
  destruct (startMonitoring_fields closed launched opened navigated url st0)
    as [Hwords [Hok Hfail]].
  unfold tryCatch, bind, ret, getStatus, get.
  destruct (startMonitoring closed launched opened navigated url st0)
    as [[[v|e] st1] out] eqn:Hstart;
    unfold resultOf, stateOf, outputOf in *; cbn [fst snd] in *.
  - destruct (Hok v eq_refl) as [_ [Hmon [Hnew Hseen]]].
    split; [now left|]. split; [congruence|]. split.
    + intros _. cbn. rewrite Hmon, Hnew. split; [reflexivity | exact Hseen].
    + discriminate.
  - split; [right; now exists e|]. split; [congruence|]. split; [discriminate|].
    intros e' _. rewrite (Hfail e eq_refl). exact Hurl0.
Qed.

Lemma start_route_answers_witness :
  let body := mkRequestBody (Some "https://www.mixcloud.com/live/dj/")
                            (WordList [mkTrigger "giveaway"]) in
  let r := postStart body (Ok tt) (Ok 1) (Ok 2) (Ok tt) initialState in
  givenUrl body = Some "https://www.mixcloud.com/live/dj/"
  /\ resultOf r = Ok success
  /\ triggerWords (stateOf r) = WordList [mkTrigger "giveaway"]
  /\ resultOf (getStatus (stateOf r))
     = Ok (mkResponse 200 (StatusBody true "https://www.mixcloud.com/live/dj/")).
Proof.
  intros body r.
  destruct (start_route_answers body (Ok tt) (Ok 1) (Ok 2) (Ok tt)
              "https://www.mixcloud.com/live/dj/" initialState eq_refl)
    as [_ [Hwords [Hok _]]].
  fold r in Hwords, Hok.
  split; [reflexivity|]. split; [reflexivity|]. split; [exact Hwords|].
  destruct (Hok eq_refl) as [Hstatus _]. now rewrite Hstatus.
Defined.

Lemma postSetUrl_cases (body : RequestBody) (closed closed' : Result unit)
    (launched opened : Result nat) (navigated : Result unit) (st : State) :
  postSetUrl body closed closed' launched opened navigated st
  = match givenUrl body with
    | None => (Ok urlRequired, st, [])
    | Some url =>
        let st1 := setMixcloudUrl url st in
        if isMonitoring st then
          match browser st, closed with
          | Some _, Throw e => (Ok (serverError e), intervalCleared st1, [])
          | _, _ =>
              match startMonitoring closed' launched opened navigated url
                      (stoppedState st1) with
              | (Ok _, s, o) => (Ok success, s, stoppedOutput st1 :: o)
              | (Throw e, s, o) => (Ok (serverError e), s, stoppedOutput st1 :: o)
              end
          end
        else (Ok success, st1, [])
    end.
Proof.
  unfold postSetUrl. destruct (givenUrl body) as [url|]; [|reflexivity].
  unfold bind at 1. unfold modify at 1. unfold bind at 1. unfold gets at 1.
  cbn [isMonitoring setMixcloudUrl app].
  destruct (isMonitoring st); [|reflexivity].
  unfold tryCatch, bind. rewrite stopMonitoring_cases.
  cbn [browser setMixcloudUrl].
  destruct (browser st) as [h|]; destruct closed as [[]|e]; try reflexivity;
    destruct (startMonitoring closed' launched opened navigated url _)
      as [[[v|err] s] o]; cbn [app ret]; unfold ret;
    rewrite ?app_nil_r; reflexivity.
Qed.

(** X17.  [/setUrl] with a url always answers 200 or 500 and records the url
    in every case, so [/status] reports it even when the restart failed.
    On an idle session it does nothing else: no browser is started and
    nothing is sent.  On a running session a 200 means the session was
    stopped and started again and is running, with an empty seen set. *)
Theorem setUrl_route_answers (body : RequestBody) (closed closed' : Result unit)
    (launched opened : Result nat) (navigated : Result unit) (url : string)
    (st : State) :
  givenUrl body = Some url ->
  let r := postSetUrl body closed closed' launched opened navigated st in
  (resultOf r = Ok success \/ exists e, resultOf r = Ok (serverError e))
  /\ mixcloudUrl (stateOf r) = url
  /\ (isMonitoring st = false -> r = (Ok success, setMixcloudUrl url st, []))
  /\ (isMonitoring st = true -> resultOf r = Ok success ->
      isMonitoring (stateOf r) = true /\ lastMessages (stateOf r) = JsSet.empty).
Proof.
  intros Hurl. cbv zeta. rewrite postSetUrl_cases, Hurl. cbv zeta.
  destruct (isMonitoring st) eqn:Hmon.
  - pose proof (startMonitoring_fields closed' launched opened navigated url
                  (stoppedState (setMixcloudUrl url st))) as Hfields.
    cbv zeta in Hfields. destruct Hfields as [_ [Hok Hfail]].
    assert (Hrestart :
      let r := match startMonitoring closed' launched opened navigated url
                       (stoppedState (setMixcloudUrl url st)) with
               | (Ok _, s, o) =>
                   (Ok success, s, stoppedOutput (setMixcloudUrl url st) :: o)
               | (Throw e, s, o) =>
                   (Ok (serverError e), s, stoppedOutput (setMixcloudUrl url st) :: o)
               end in
      (resultOf r = Ok success \/ exists e, resultOf r = Ok (serverError e))
      /\ mixcloudUrl (stateOf r) = url
      /\ (true = false -> r = (Ok success, setMixcloudUrl url st, []))
      /\ (true = true -> resultOf r = Ok success ->
          isMonitoring (stateOf r) = true /\ lastMessages (stateOf r) = JsSet.empty)).
    { destruct (startMonitoring closed' launched opened navigated url
                  (stoppedState (setMixcloudUrl url st)))
        as [[[v|err] s] o];
        unfold resultOf, stateOf, outputOf in *; cbn [fst snd] in *.
      - destruct (Hok v eq_refl) as [_ [Hmon1 [Hnew Hseen]]].
        split; [now left|]. split; [exact Hnew|]. split; [discriminate | auto].
      - split; [right; now exists err|]. split; [now rewrite (Hfail err eq_refl)|].
        split; discriminate. }
    destruct (browser st) as [h|]; destruct closed as [[]|e]; try exact Hrestart.
    unfold resultOf, stateOf, outputOf. cbn [fst snd].
    split; [right; now exists e|]. split.
    + unfold intervalCleared. now destruct (checkInterval _).
    + split; discriminate.
  - unfold resultOf, stateOf, outputOf. cbn [fst snd].
    split; [now left|]. split; [reflexivity|]. split; [reflexivity | discriminate].
Qed.

Lemma setUrl_route_answers_witness :
  let body := mkRequestBody (Some "https://www.mixcloud.com/live/b/") Nullish in
  let r := postSetUrl body (Ok tt) (Ok tt) (Ok 3) (Throw "Navigation timeout")
             (Ok tt) (Sample.activeState []) in
  givenUrl body = Some "https://www.mixcloud.com/live/b/"
  /\ resultOf r = Ok (serverError "Navigation timeout")
  /\ resultOf (getStatus (stateOf r))
     = Ok (mkResponse 200 (StatusBody false "https://www.mixcloud.com/live/b/")).
Proof.
  intros body r.
  destruct (setUrl_route_answers body (Ok tt) (Ok tt) (Ok 3)
              (Throw "Navigation timeout") (Ok tt)
              "https://www.mixcloud.com/live/b/" (Sample.activeState []) eq_refl)
    as [_ [Hrecorded _]].
  fold r in Hrecorded.
  split; [reflexivity|]. split; [reflexivity|].
  unfold getStatus, bind, get, ret, resultOf. cbn [fst].
  rewrite Hrecorded. reflexivity.
Defined.

(** ** Consistency of the session variables *)

Lemma consistent_initial : consistent initialState.
Proof. unfold consistent. cbn. repeat split; intros; congruence. Qed.

Lemma consistent_stoppedState (st : State) :
  consistent st -> consistent (stoppedState st).
Proof.
  intros [Htimers [_ [_ [_ Hpage]]]]. unfold consistent, stoppedState. cbn.
  repeat split; try congruence.
  - rewrite Htimers. destruct (checkInterval st); [apply remove_single | reflexivity].
  - destruct (browser st) as [h|]; [congruence|].
    intros Hheld. elim (Hpage Hheld). reflexivity.
Qed.

Lemma consistent_intervalCleared (st : State) :
  consistent st -> consistent (intervalCleared st).
Proof.
  intros Hcons. unfold intervalCleared.
  destruct (checkInterval st) as [t|] eqn:Hinterval; [|exact Hcons].
  destruct Hcons as [Htimers [_ [Hmon [Hidle Hpage]]]].
  rewrite Hinterval in Htimers.
  unfold consistent.
  cbn [timers checkInterval isMonitoring browser page lastMessages
       setCheckInterval setTimers].
  rewrite Htimers, remove_single.
  repeat split; try assumption; try apply Hmon; try congruence.
Qed.

Lemma consistent_idle (st : State) :
  consistent st ->
  let before := if isMonitoring st then stoppedState st else st in
  consistent before /\ isMonitoring before = false.
Proof.
  intros Hcons. cbv zeta. destruct (isMonitoring st) eqn:Hmon.
  - split; [now apply consistent_stoppedState | reflexivity].
  - split; assumption.
Qed.

Lemma consistent_new_browser (b : nat) (st : State) :
  consistent st -> isMonitoring st = false ->
  consistent (setBrowser (Some b) st)
  /\ forall p, consistent (setPage (Some p) (setBrowser (Some b) st)).
Proof.
  intros [Htimers [Hinterval [_ [Hidle _]]]] Hmon.
  unfold consistent. cbn. rewrite Hmon in *.
  repeat split; try assumption; try discriminate; auto.
Qed.

Lemma consistent_startedState (b p : nat) (url : string) (st : State) :
  consistent st -> consistent (startedState b p url st).
Proof.
  intros Hcons. pose proof (consistent_idle_timers st Hcons) as Htimers.
  unfold consistent, startedState. cbn [timers checkInterval isMonitoring browser
    page lastMessages].
  rewrite Htimers. repeat split; try discriminate.
Qed.

Lemma stopMonitoring_consistent (closed : Result unit) (st : State) :
  consistent st -> consistent (stateOf (stopMonitoring closed st)).
Proof.
  intros Hcons. rewrite stopMonitoring_cases.
  destruct (browser st); destruct closed as [[]|e]; unfold stateOf; cbn [fst snd];
    first [now apply consistent_stoppedState | now apply consistent_intervalCleared].
Qed.

Lemma startMonitoring_consistent (closed : Result unit) (launched opened : Result nat)
    (navigated : Result unit) (url : string) (st : State) :
  consistent st ->
  consistent (stateOf (startMonitoring closed launched opened navigated url st)).
Proof.
  intros Hcons. rewrite startMonitoring_cases.
  destruct (consistent_idle st Hcons) as [Hbefore Hidle].
  assert (Hrest :
    consistent
      (stateOf
         (match launched, opened, navigated with
          | Throw e, _, _ =>
              (@Throw bool e, if isMonitoring st then stoppedState st else st,
               @nil Output)
          | Ok b, Throw e, _ =>
              (Throw e,
               setBrowser (Some b) (if isMonitoring st then stoppedState st else st),
               [])
          | Ok b, Ok p, Throw e =>
              (Throw e,
               setPage (Some p)
                 (setBrowser (Some b)
                    (if isMonitoring st then stoppedState st else st)), [])
          | Ok b, Ok p, Ok _ => (Ok true, startedState b p url st, [])
          end))).
  { destruct launched as [b|e]; [|exact Hbefore].
    destruct (consistent_new_browser b _ Hbefore Hidle) as [Hb Hp].
    destruct opened as [p|e]; [|exact Hb].
    destruct navigated as [[]|e]; [|exact (Hp p)].
    now apply consistent_startedState. }
  assert (Hcleared := consistent_intervalCleared st Hcons).
  destruct (if isMonitoring st then browser st else None) as [h|];
    destruct closed as [[]|e]; unfold stateOf in *; cbn [fst snd] in *;
    try exact Hcleared;
    destruct launched as [b|e1]; try destruct opened as [p|e2];
    try destruct navigated as [[]|e3]; exact Hrest.
Qed.

Lemma consistent_unrelated (st st' : State) :
  browser st' = browser st -> page st' = page st ->
  isMonitoring st' = isMonitoring st -> lastMessages st' = lastMessages st ->
  checkInterval st' = checkInterval st -> timers st' = timers st ->
  consistent st -> consistent st'.
Proof.
  unfold consistent. intros -> -> -> -> -> ->. exact (fun H => H).
Qed.

Lemma handle_consistent (lower : string -> string) (e : Entry) (st : State) :
  consistent st -> consistent (stateOf (handle lower e st)).
Proof.
  intros Hcons. destruct e as [|body closed closed' launched opened navigated
    |body closed launched opened navigated|closed|ws|ws|ws parsed|hasChat content];
    unfold handle, discard.
  - exact Hcons.
  - rewrite postSetUrl_cases.
    destruct (givenUrl body) as [url|]; [|exact Hcons]. cbv zeta.
    assert (Hcons1 : consistent (setMixcloudUrl url st))
      by (now apply (consistent_unrelated st)).
    destruct (isMonitoring st); [|exact Hcons1].
    pose proof (startMonitoring_consistent closed' launched opened navigated url
                  _ (consistent_stoppedState _ Hcons1)) as Hstart.
    pose proof (consistent_intervalCleared _ Hcons1) as Hcleared.
    destruct (browser st); destruct closed as [[]|e]; try exact Hcleared;
      destruct (startMonitoring closed' launched opened navigated url _)
        as [[[v|err] s] o]; exact Hstart.
  - unfold postStart. destruct (givenUrl body) as [url|]; [|exact Hcons].
    set (st0 := if truthyWords (bodyTriggers body)
                then setTriggerWords (bodyTriggers body) st else st).
    assert (Hcons0 : consistent st0).
    { unfold st0. destruct (truthyWords (bodyTriggers body)); [|exact Hcons].
      now apply (consistent_unrelated st). }
    pose proof (startMonitoring_consistent closed launched opened navigated url
                  st0 Hcons0) as Hstart.
    unfold bind, tryCatch, st0 in *.
    destruct (truthyWords (bodyTriggers body)); cbn [modify ret];
      destruct (startMonitoring closed launched opened navigated url _)
        as [[[v|err] s] o]; exact Hstart.
  - pose proof (stopMonitoring_consistent closed st Hcons) as Hstop.
    unfold postStop, tryCatch, bind.
    destruct (stopMonitoring closed st) as [[[v|err] s] o]; exact Hstop.
  - now apply (consistent_unrelated st).
  - now apply (consistent_unrelated st).
  - unfold onMessage, tryCatch, bind, await.
    destruct parsed as [data|err]; [|exact Hcons].
    destruct (String.eqb (dataType data) "setTriggers"); [|exact Hcons].
    destruct (dataTriggers data); now apply (consistent_unrelated st).
  - rewrite checkForTriggers_cases.
    destruct (isMonitoring st) eqn:Hmon; [|exact Hcons].
    destruct (hasPage st); [|exact Hcons]. cbn [negb orb].
    destruct hasChat as [[|]|err]; try exact Hcons.
    destruct content as [elems|err]; [|exact Hcons].
    unfold stateOf. cbn [fst snd].
    destruct Hcons as [Htimers [Hinterval [Hheld [_ Hpage]]]].
    unfold consistent. cbn. rewrite Hmon in *.
    repeat split; try assumption; try apply Hheld; try reflexivity; discriminate.
Qed.

(** X18.  Whatever requests, socket events and ticks the server handles
    one after the other, and whatever the browser answers, a consistent
    session stays consistent: the only registered interval is the one in
    [checkInterval] (no timer is leaked), an interval is held only while
    monitoring, a monitoring session holds a browser and a page, an idle
    session has an empty seen set, and a page is never held without a
    browser.  The initial state is consistent. *)
Theorem session_stays_consistent (lower : string -> string)
    (entries : list Entry) (st : State) :
  consistent st -> consistent (runEntries lower entries st).
Proof.
  revert st. induction entries as [|e rest IH]; intros st Hcons; [exact Hcons|].
  cbn [runEntries]. apply IH. now apply handle_consistent.
Qed.

Lemma session_stays_consistent_witness :
  let entries :=
    [ WsConnection Sample.listener;
      PostStart (mkRequestBody (Some "https://www.mixcloud.com/live/dj/")
                               (WordList [mkTrigger "giveaway"]))
                (Ok tt) (Ok 1) (Ok 2) (Ok tt);
      IntervalTick (Ok true) (Ok [Sample.element "alice" "any giveaway soon?"]);
      PostSetUrl (mkRequestBody (Some "https://www.mixcloud.com/live/b/") Nullish)
                 (Ok tt) (Ok tt) (Ok 3) (Throw "Navigation timeout") (Ok tt);
      PostStop (Throw "Target closed") ] in
  consistent initialState
  /\ consistent (runEntries Sample.lower entries initialState)
  /\ timers (runEntries Sample.lower entries initialState) = [].
Proof.
  intros entries. split; [exact consistent_initial|]. split.
  - apply (session_stays_consistent Sample.lower entries initialState).
    exact consistent_initial.
  - reflexivity.
Defined.

(** ** Ticks in the interleaving model *)

Lemma tickAfterMessages_run (lower : string -> string) (elems : list ChatElement)
    (st : State) :
  tickAfterMessages lower (Ok elems) st
  = (Ok tt,
     setLastMessages
       (updatedSeen (lastMessages st)
          (newMessagesOf (lastMessages st) (map mkMessage elems))) st,
     tickOutputs lower st
       (newMessagesOf (lastMessages st) (map mkMessage elems))).
Proof.
  unfold tickAfterMessages, tryCatch, bind, await. cbn [mapResult].
  rewrite handleMessages_run. cbv zeta. unfold tickOutputs.
  now destruct (loopThrows st _).
Qed.

Lemma step_timer_fires (lower : string -> string) (sys : System) (t : nat) :
  In t (timers (appState sys)) ->
  isMonitoring (appState sys) = true -> hasPage (appState sys) = true ->
  step lower sys (TimerFires t)
  = Some (mkSystem (appState sys) (inFlight sys ++ [AwaitHasChat]) (sent sys)).
Proof.
  intros Htimer Hmon Hpage. unfold step, tickEnter, bind, get, ret.
  rewrite (timer_registered t _ Htimer), Hmon, Hpage. cbn.
  now rewrite app_nil_r.
Qed.

Lemma step_hasChat_true (lower : string -> string) (sys : System) (i : nat) :
  nth_error (inFlight sys) i = Some AwaitHasChat ->
  step lower sys (HasChatSettles i (Ok true))
  = Some (mkSystem (appState sys) (replaceNth i AwaitMessages (inFlight sys))
                   (sent sys)).
Proof.
  intros Hnth. unfold step. rewrite Hnth.
  unfold tickAfterHasChat, tryCatch, bind, await, ret. cbn.
  now rewrite app_nil_r.
Qed.

Lemma step_messages_settle (lower : string -> string) (sys : System) (i : nat)
    (content : Result (list ChatElement)) :
  nth_error (inFlight sys) i = Some AwaitMessages ->
  step lower sys (MessagesSettle i content)
  = Some (mkSystem (stateOf (tickAfterMessages lower content (appState sys)))
                   (removeNth i (inFlight sys))
                   (sent sys
                      ++ outputOf (tickAfterMessages lower content (appState sys)))).
Proof.
  intros Hnth. unfold step. rewrite Hnth.
  now destruct (tickAfterMessages lower content (appState sys)) as [[r st] out].
Qed.

(** X19.  A tick that nothing interleaves with is the procedure run in
    one piece: from a system with no tick in flight, the firing of the
    registered interval followed by the settling of its two
    [page.evaluate] calls leaves the state and sends the outputs of
    [checkForTriggers], and no tick in flight. *)
Theorem lone_tick_is_checkForTriggers (lower : string -> string) (sys : System)
    (t : nat) (content : Result (list ChatElement)) :
  In t (timers (appState sys)) ->
  isMonitoring (appState sys) = true -> hasPage (appState sys) = true ->
  inFlight sys = [] ->
  let r := checkForTriggers lower (Ok true) content (appState sys) in
  steps lower sys [TimerFires t; HasChatSettles 0 (Ok true); MessagesSettle 0 content]
  = Some (mkSystem (stateOf r) [] (sent sys ++ outputOf r)).
Proof.
  intros Htimer Hmon Hpage Hnone. cbv zeta.
  cbn [steps].
  rewrite (step_timer_fires lower sys t Htimer Hmon Hpage), Hnone. cbn [app].
  rewrite step_hasChat_true by reflexivity.
  cbn [appState inFlight sent replaceNth firstn skipn app].
  rewrite step_messages_settle by reflexivity.
  cbn [appState inFlight sent removeNth firstn skipn app].
  rewrite checkForTriggers_by_pieces.
  unfold tickEnter, tickAfterHasChat, tryCatch, bind, get, await, ret.
  rewrite Hmon, Hpage. cbn [negb orb].
  now destruct (tickAfterMessages lower content (appState sys)) as [[r st'] out'].
Qed.

Lemma lone_tick_is_checkForTriggers_witness :
  let st := Sample.activeState [mkTrigger "giveaway"] in
  let content := Ok [Sample.element "alice" "any giveaway soon?"] in
  In 0 (timers st)
  /\ option_map inFlight
       (steps Sample.lower (mkSystem st [] [])
          [TimerFires 0; HasChatSettles 0 (Ok true); MessagesSettle 0 content])
     = Some []
  /\ option_map sent
       (steps Sample.lower (mkSystem st [] [])
          [TimerFires 0; HasChatSettles 0 (Ok true); MessagesSettle 0 content])
     = Some (outputOf (checkForTriggers Sample.lower (Ok true) content st)).
Proof.
  intros st content.
  pose proof (lone_tick_is_checkForTriggers Sample.lower (mkSystem st [] []) 0 content
                (or_introl eq_refl) eq_refl eq_refl eq_refl) as Hrun.
  cbv zeta in Hrun. split; [now left|]. rewrite Hrun. split; reflexivity.
Defined.

(** X20.  Overlapping ticks do not report twice: the filter against the
    seen set and its update happen in one uninterrupted piece, so when two
    ticks in flight both come back with the same elements, the second one
    to resume finds them seen and sends nothing (as long as the seen set
    held at most 50 identities, so that the first evicted nothing). *)
Theorem overlapping_ticks_report_once (lower : string -> string) (sys : System)
    (elems : list ChatElement) :
  inFlight sys = [AwaitMessages; AwaitMessages] ->
  JsSet.size (lastMessages (appState sys)) <= 50 ->
  exists sys',
    steps lower sys [MessagesSettle 0 (Ok elems); MessagesSettle 0 (Ok elems)]
    = Some sys'
    /\ inFlight sys' = []
    /\ sent sys'
       = sent sys ++ outputOf (tickAfterMessages lower (Ok elems) (appState sys)).
Proof.
  intros Hflying Hsize. cbn [steps].
  rewrite step_messages_settle by now rewrite Hflying.
  rewrite step_messages_settle by now rewrite Hflying.
  eexists. split; [reflexivity|].
  cbn [appState inFlight sent]. rewrite Hflying. split; [reflexivity|].
  rewrite <- app_assoc. f_equal.
  rewrite !tickAfterMessages_run. unfold stateOf, outputOf.
  cbn [fst snd lastMessages setLastMessages].
  rewrite (newMessagesOf_nil
             (updatedSeen (lastMessages (appState sys))
                (newMessagesOf (lastMessages (appState sys)) (map mkMessage elems)))
             (map mkMessage elems)).
  - rewrite tickOutputs_nil. now rewrite app_nil_r.
  - intros message Hin. apply has_iff.
    destruct (JsSet.has (lastMessages (appState sys)) (id message)) eqn:Hseen.
    + apply updatedSeen_In. left.
      rewrite (sliceLast_all 50 (lastMessages (appState sys)) Hsize).
      now apply has_iff.
    + apply updatedSeen_In. right. exists message. now repeat split.
Qed.

Lemma overlapping_ticks_report_once_witness :
  let st := Sample.activeState [mkTrigger "giveaway"] in
  let alice := Sample.element "alice" "any giveaway soon?" in
  let sys := mkSystem st [AwaitMessages; AwaitMessages] [] in
  exists sys',
    steps Sample.lower sys [MessagesSettle 0 (Ok [alice]); MessagesSettle 0 (Ok [alice])]
    = Some sys'
    /\ triggerCount (sent sys') = 1.
Proof.
  intros st alice sys.
  destruct (overlapping_ticks_report_once Sample.lower sys [alice] eq_refl)
    as [sys' [Hrun [_ Hsent]]].
  - cbn. lia.
  - exists sys'. split; [exact Hrun|]. rewrite Hsent. reflexivity.
Defined.

(** ** Ticks while the trigger words are not an array *)


